(** * DndProvider: the pan-gesture engine of react-native-dnd

    A shallow embedding of [src/DndProvider.tsx]: the two hit-testing
    worklets ([findActiveLayoutId], [findDroppableLayoutId]), the helpers
    of the delayed activation ([setActiveId], [clearActiveIdTimeout]) and
    the three handlers of the pan gesture ([onBegin], [onUpdate],
    [onFinalize]) together with the settle callback handed to the spring
    animation.

    Conventions of the embedding.
    - A JavaScript [number] is an abstract type [num] with the operations
      the source applies to it (class [Number]); every theorem holds for
      any interpretation of these operations.  [Z] is the instance used to
      evaluate the handlers on concrete inputs.
    - The registries indexed by item id are [gmap string _]; the two
      registries the source iterates with [Object.entries] are association
      lists kept in iteration order.
    - A property read on [undefined] raises [TypeError]: a handler returns
      [Thrown s], with [s] the store as it is when the exception leaves. *)

From stdpp Require Import gmap strings list fin_maps.
From Stdlib Require Import ZArith.

(** ** Numbers *)

Class Number (num : Type) := {
  nzero : num;
  nadd : num -> num -> num;
  nsub : num -> num -> num;
  nmul : num -> num -> num;
  nsqrt : num -> num;
  nleb : num -> num -> bool;
  nltb : num -> num -> bool
}.

(** [a > b] of the source. *)
Definition ngtb {num} `{Number num} (a b : num) : bool := nltb b a.

(** Integer coordinates; [Z.sqrt] is exact on the perfect squares that the
    concrete runs below feed it. *)
#[export] Instance Z_Number : Number Z := {|
  nzero := 0%Z;
  nadd := Z.add;
  nsub := Z.sub;
  nmul := Z.mul;
  nsqrt := Z.sqrt;
  nleb := Z.leb;
  nltb := Z.ltb
|}.

(** ** Data model *)

Abbreviation UniqueIdentifier := string.

(** [State] of react-native-gesture-handler. *)
Inductive GestureState :=
  | UNDETERMINED | FAILED | BEGAN | CANCELLED | ACTIVE | END.

Definition GestureState_eqb (a b : GestureState) : bool :=
  match a, b with
  | UNDETERMINED, UNDETERMINED | FAILED, FAILED | BEGAN, BEGAN
  | CANCELLED, CANCELLED | ACTIVE, ACTIVE | END, END => true
  | _, _ => false
  end.

(** The four values a draggable's state takes. *)
Inductive DraggableState := resting | pending | dragging | acting.

Definition DraggableState_eqb (a b : DraggableState) : bool :=
  match a, b with
  | resting, resting | pending, pending
  | dragging, dragging | acting, acting => true
  | _, _ => false
  end.

(** [["dragging", "acting"].includes(activeState)] *)
Definition dragging_or_acting (st : DraggableState) : bool :=
  DraggableState_eqb st dragging || DraggableState_eqb st acting.

Section Engine.
Context {num : Type} `{Number num}.

Record Point := { pt_x : num; pt_y : num }.

Record Rectangle := {
  rect_x : num;
  rect_y : num;
  width : num;
  height : num
}.

Record ItemOptions := {
  disabled : bool;
  activationDelay : num;
  activationTolerance : num;
  data : string
}.

Record DropOptions := {
  drop_disabled : bool;
  drop_data : string
}.

(** One running spring on one axis of a live offset. *)
Record Spring := { toValue : num; velocity : num }.

Record BeginEvent := { b_state : GestureState; b_x : num; b_y : num }.
Record UpdateEvent := {
  u_state : GestureState;
  translationX : num;
  translationY : num
}.
Record FinalizeEvent := {
  f_state : GestureState;
  velocityX : num;
  velocityY : num
}.

(** The [over] field of the argument of [onDragEnd]: [null], or whatever
    [droppableOptions.value[dropActiveId]] reads ([None] is [undefined]). *)
Inductive Over :=
  | OverNull
  | OverOptions (o : option DropOptions).

(** Calls of the consumer callbacks, in the order they are made. *)
Inductive Call :=
  | CallOnBegin (ev : BeginEvent) (activeId : UniqueIdentifier)
      (activeLayout : Rectangle)
  | CallOnUpdate (ev : UpdateEvent) (activeId : UniqueIdentifier)
      (activeLayout : Rectangle) (dropId : option UniqueIdentifier)
  | CallOnFinalize (ev : FinalizeEvent) (activeId : UniqueIdentifier)
      (activeLayout : Rectangle)
  | CallOnDragEnd (active : option ItemOptions) (over : Over).

(** The props of the provider that the gesture handlers read; a callback
    prop is represented by whether it was given. *)
Record Props := {
  prop_disabled : bool;
  prop_onBegin : bool;
  prop_onUpdate : bool;
  prop_onFinalize : bool;
  prop_onDragEnd : bool
}.

(** The shared values of the provider, the timer of the delayed
    activation, the springs started on live offsets and the trace of
    callback calls. *)
Record Store := {
  draggableLayouts : list (UniqueIdentifier * Rectangle);
  droppableLayouts : list (UniqueIdentifier * Rectangle);
  draggableOptions : gmap string ItemOptions;
  droppableOptions : gmap string DropOptions;
  draggableOffsets : gmap string Point;
  draggableRestingOffsets : gmap string Point;
  draggableStates : gmap string DraggableState;
  draggablePendingId : option UniqueIdentifier;
  draggableActiveId : option UniqueIdentifier;
  droppableActiveId : option UniqueIdentifier;
  draggableActiveLayout : option Rectangle;
  draggableInitialOffset : Point;
  draggableContentOffset : Point;
  panGestureState : GestureState;
  (* [let timeout] and the timers of the host that have not run yet *)
  timeout : option positive;
  timers : list (positive * UniqueIdentifier);
  nextTimer : positive;
  (* springs running on the x and y axis of a live offset *)
  springX : gmap string Spring;
  springY : gmap string Spring;
  calls : list Call
}.

(** *** Field updates *)

Definition set_draggableOffsets (v : gmap string Point) (s : Store) : Store :=
  {| draggableLayouts := draggableLayouts s; droppableLayouts := droppableLayouts s;
     draggableOptions := draggableOptions s; droppableOptions := droppableOptions s;
     draggableOffsets := v;
     draggableRestingOffsets := draggableRestingOffsets s;
     draggableStates := draggableStates s; draggablePendingId := draggablePendingId s;
     draggableActiveId := draggableActiveId s; droppableActiveId := droppableActiveId s;
     draggableActiveLayout := draggableActiveLayout s;
     draggableInitialOffset := draggableInitialOffset s;
     draggableContentOffset := draggableContentOffset s;
     panGestureState := panGestureState s; timeout := timeout s; timers := timers s;
     nextTimer := nextTimer s; springX := springX s; springY := springY s;
     calls := calls s |}.

Definition set_draggableRestingOffsets (v : gmap string Point) (s : Store) : Store :=
  {| draggableLayouts := draggableLayouts s; droppableLayouts := droppableLayouts s;
     draggableOptions := draggableOptions s; droppableOptions := droppableOptions s;
     draggableOffsets := draggableOffsets s;
     draggableRestingOffsets := v;
     draggableStates := draggableStates s; draggablePendingId := draggablePendingId s;
     draggableActiveId := draggableActiveId s; droppableActiveId := droppableActiveId s;
     draggableActiveLayout := draggableActiveLayout s;
     draggableInitialOffset := draggableInitialOffset s;
     draggableContentOffset := draggableContentOffset s;
     panGestureState := panGestureState s; timeout := timeout s; timers := timers s;
     nextTimer := nextTimer s; springX := springX s; springY := springY s;
     calls := calls s |}.

Definition set_draggableStates (v : gmap string DraggableState) (s : Store) : Store :=
  {| draggableLayouts := draggableLayouts s; droppableLayouts := droppableLayouts s;
     draggableOptions := draggableOptions s; droppableOptions := droppableOptions s;
     draggableOffsets := draggableOffsets s;
     draggableRestingOffsets := draggableRestingOffsets s;
     draggableStates := v; draggablePendingId := draggablePendingId s;
     draggableActiveId := draggableActiveId s; droppableActiveId := droppableActiveId s;
     draggableActiveLayout := draggableActiveLayout s;
     draggableInitialOffset := draggableInitialOffset s;
     draggableContentOffset := draggableContentOffset s;
     panGestureState := panGestureState s; timeout := timeout s; timers := timers s;
     nextTimer := nextTimer s; springX := springX s; springY := springY s;
     calls := calls s |}.

Definition set_draggablePendingId (v : option UniqueIdentifier) (s : Store) : Store :=
  {| draggableLayouts := draggableLayouts s; droppableLayouts := droppableLayouts s;
     draggableOptions := draggableOptions s; droppableOptions := droppableOptions s;
     draggableOffsets := draggableOffsets s;
     draggableRestingOffsets := draggableRestingOffsets s;
     draggableStates := draggableStates s; draggablePendingId := v;
     draggableActiveId := draggableActiveId s; droppableActiveId := droppableActiveId s;
     draggableActiveLayout := draggableActiveLayout s;
     draggableInitialOffset := draggableInitialOffset s;
     draggableContentOffset := draggableContentOffset s;
     panGestureState := panGestureState s; timeout := timeout s; timers := timers s;
     nextTimer := nextTimer s; springX := springX s; springY := springY s;
     calls := calls s |}.

Definition set_draggableActiveId (v : option UniqueIdentifier) (s : Store) : Store :=
  {| draggableLayouts := draggableLayouts s; droppableLayouts := droppableLayouts s;
     draggableOptions := draggableOptions s; droppableOptions := droppableOptions s;
     draggableOffsets := draggableOffsets s;
     draggableRestingOffsets := draggableRestingOffsets s;
     draggableStates := draggableStates s; draggablePendingId := draggablePendingId s;
     draggableActiveId := v; droppableActiveId := droppableActiveId s;
     draggableActiveLayout := draggableActiveLayout s;
     draggableInitialOffset := draggableInitialOffset s;
     draggableContentOffset := draggableContentOffset s;
     panGestureState := panGestureState s; timeout := timeout s; timers := timers s;
     nextTimer := nextTimer s; springX := springX s; springY := springY s;
     calls := calls s |}.

Definition set_droppableActiveId (v : option UniqueIdentifier) (s : Store) : Store :=
  {| draggableLayouts := draggableLayouts s; droppableLayouts := droppableLayouts s;
     draggableOptions := draggableOptions s; droppableOptions := droppableOptions s;
     draggableOffsets := draggableOffsets s;
     draggableRestingOffsets := draggableRestingOffsets s;
     draggableStates := draggableStates s; draggablePendingId := draggablePendingId s;
     draggableActiveId := draggableActiveId s; droppableActiveId := v;
     draggableActiveLayout := draggableActiveLayout s;
     draggableInitialOffset := draggableInitialOffset s;
     draggableContentOffset := draggableContentOffset s;
     panGestureState := panGestureState s; timeout := timeout s; timers := timers s;
     nextTimer := nextTimer s; springX := springX s; springY := springY s;
     calls := calls s |}.

Definition set_draggableActiveLayout (v : option Rectangle) (s : Store) : Store :=
  {| draggableLayouts := draggableLayouts s; droppableLayouts := droppableLayouts s;
     draggableOptions := draggableOptions s; droppableOptions := droppableOptions s;
     draggableOffsets := draggableOffsets s;
     draggableRestingOffsets := draggableRestingOffsets s;
     draggableStates := draggableStates s; draggablePendingId := draggablePendingId s;
     draggableActiveId := draggableActiveId s; droppableActiveId := droppableActiveId s;
     draggableActiveLayout := v;
     draggableInitialOffset := draggableInitialOffset s;
     draggableContentOffset := draggableContentOffset s;
     panGestureState := panGestureState s; timeout := timeout s; timers := timers s;
     nextTimer := nextTimer s; springX := springX s; springY := springY s;
     calls := calls s |}.

Definition set_draggableInitialOffset (v : Point) (s : Store) : Store :=
  {| draggableLayouts := draggableLayouts s; droppableLayouts := droppableLayouts s;
     draggableOptions := draggableOptions s; droppableOptions := droppableOptions s;
     draggableOffsets := draggableOffsets s;
     draggableRestingOffsets := draggableRestingOffsets s;
     draggableStates := draggableStates s; draggablePendingId := draggablePendingId s;
     draggableActiveId := draggableActiveId s; droppableActiveId := droppableActiveId s;
     draggableActiveLayout := draggableActiveLayout s;
     draggableInitialOffset := v;
     draggableContentOffset := draggableContentOffset s;
     panGestureState := panGestureState s; timeout := timeout s; timers := timers s;
     nextTimer := nextTimer s; springX := springX s; springY := springY s;
     calls := calls s |}.

Definition set_panGestureState (v : GestureState) (s : Store) : Store :=
  {| draggableLayouts := draggableLayouts s; droppableLayouts := droppableLayouts s;
     draggableOptions := draggableOptions s; droppableOptions := droppableOptions s;
     draggableOffsets := draggableOffsets s;
     draggableRestingOffsets := draggableRestingOffsets s;
     draggableStates := draggableStates s; draggablePendingId := draggablePendingId s;
     draggableActiveId := draggableActiveId s; droppableActiveId := droppableActiveId s;
     draggableActiveLayout := draggableActiveLayout s;
     draggableInitialOffset := draggableInitialOffset s;
     draggableContentOffset := draggableContentOffset s;
     panGestureState := v; timeout := timeout s; timers := timers s;
     nextTimer := nextTimer s; springX := springX s; springY := springY s;
     calls := calls s |}.

Definition set_timer (t : option positive)
    (ts : list (positive * UniqueIdentifier)) (n : positive) (s : Store) : Store :=
  {| draggableLayouts := draggableLayouts s; droppableLayouts := droppableLayouts s;
     draggableOptions := draggableOptions s; droppableOptions := droppableOptions s;
     draggableOffsets := draggableOffsets s;
     draggableRestingOffsets := draggableRestingOffsets s;
     draggableStates := draggableStates s; draggablePendingId := draggablePendingId s;
     draggableActiveId := draggableActiveId s; droppableActiveId := droppableActiveId s;
     draggableActiveLayout := draggableActiveLayout s;
     draggableInitialOffset := draggableInitialOffset s;
     draggableContentOffset := draggableContentOffset s;
     panGestureState := panGestureState s; timeout := t; timers := ts;
     nextTimer := n; springX := springX s; springY := springY s;
     calls := calls s |}.

Definition set_springs (sx sy : gmap string Spring) (s : Store) : Store :=
  {| draggableLayouts := draggableLayouts s; droppableLayouts := droppableLayouts s;
     draggableOptions := draggableOptions s; droppableOptions := droppableOptions s;
     draggableOffsets := draggableOffsets s;
     draggableRestingOffsets := draggableRestingOffsets s;
     draggableStates := draggableStates s; draggablePendingId := draggablePendingId s;
     draggableActiveId := draggableActiveId s; droppableActiveId := droppableActiveId s;
     draggableActiveLayout := draggableActiveLayout s;
     draggableInitialOffset := draggableInitialOffset s;
     draggableContentOffset := draggableContentOffset s;
     panGestureState := panGestureState s; timeout := timeout s; timers := timers s;
     nextTimer := nextTimer s; springX := sx; springY := sy;
     calls := calls s |}.

Definition set_calls (v : list Call) (s : Store) : Store :=
  {| draggableLayouts := draggableLayouts s; droppableLayouts := droppableLayouts s;
     draggableOptions := draggableOptions s; droppableOptions := droppableOptions s;
     draggableOffsets := draggableOffsets s;
     draggableRestingOffsets := draggableRestingOffsets s;
     draggableStates := draggableStates s; draggablePendingId := draggablePendingId s;
     draggableActiveId := draggableActiveId s; droppableActiveId := droppableActiveId s;
     draggableActiveLayout := draggableActiveLayout s;
     draggableInitialOffset := draggableInitialOffset s;
     draggableContentOffset := draggableContentOffset s;
     panGestureState := panGestureState s; timeout := timeout s; timers := timers s;
     nextTimer := nextTimer s; springX := springX s; springY := springY s;
     calls := v |}.

(** ** Worklets: store passing with [TypeError] *)

Inductive Outcome (A : Type) :=
  | Done (a : A) (s : Store)
  | Thrown (s : Store).
Arguments Done {A} a s.
Arguments Thrown {A} s.

Definition Worklet (A : Type) : Type := Store -> Outcome A.

Definition ret {A} (a : A) : Worklet A := fun s => Done a s.

Definition bind {A B} (m : Worklet A) (k : A -> Worklet B) : Worklet B :=
  fun s => match m s with
           | Done a s' => k a s'
           | Thrown s' => Thrown s'
           end.

Definition throw {A} : Worklet A := fun s => Thrown s.

Definition read {A} (f : Store -> A) : Worklet A := fun s => Done (f s) s.

Definition write (f : Store -> Store) : Worklet unit := fun s => Done tt (f s).

(** A property access on a value that may be [undefined]. *)
Definition defined {A} (o : option A) : Worklet A :=
  match o with
  | Some a => ret a
  | None => throw
  end.

Definition when (b : bool) (m : Worklet unit) : Worklet unit :=
  if b then m else ret tt.

(** The store a handler leaves behind, whether it returned or threw. *)
Definition store_of {A} (o : Outcome A) : Store :=
  match o with
  | Done _ s => s
  | Thrown s => s
  end.

End Engine.

Arguments Point num : clear implicits.
Arguments Rectangle num : clear implicits.
Arguments ItemOptions num : clear implicits.
Arguments Spring num : clear implicits.
Arguments BeginEvent num : clear implicits.
Arguments UpdateEvent num : clear implicits.
Arguments FinalizeEvent num : clear implicits.
Arguments Call num : clear implicits.
Arguments Store num : clear implicits.
Arguments Outcome num A : clear implicits.
Arguments Worklet num A : clear implicits.
Arguments Done {num A} a s.
Arguments set_draggableOffsets {num} _ _ /.
Arguments set_draggableRestingOffsets {num} _ _ /.
Arguments set_draggableStates {num} _ _ /.
Arguments set_draggablePendingId {num} _ _ /.
Arguments set_draggableActiveId {num} _ _ /.
Arguments set_droppableActiveId {num} _ _ /.
Arguments set_draggableActiveLayout {num} _ _ /.
Arguments set_draggableInitialOffset {num} _ _ /.
Arguments set_panGestureState {num} _ _ /.
Arguments set_timer {num} _ _ _ _ /.
Arguments set_springs {num} _ _ _ /.
Arguments set_calls {num} _ _ /.
Arguments Thrown {num A} s.

Declare Scope worklet_scope.
Delimit Scope worklet_scope with worklet.
Notation "x <-- m ;; k" := (bind m (fun x => k))
  (at level 100, m at next level, k at level 200, right associativity)
  : worklet_scope.
Notation "m ;; k" := (bind m (fun _ => k))
  (at level 100, k at level 200, right associativity) : worklet_scope.

(** ** Geometry helpers ([./utils]) *)

Section Geometry.
Context {num : Type} `{Number num}.

(** Modelled from the spec: [includesPoint] of [./utils] is not part of the
    sources at hand; "true iff point lies within rect's closed bounds". *)
Definition includesPoint (layout : Rectangle num) (p : Point num) : bool :=
  nleb (rect_x layout) (pt_x p)
  && nleb (pt_x p) (nadd (rect_x layout) (width layout))
  && nleb (rect_y layout) (pt_y p)
  && nleb (pt_y p) (nadd (rect_y layout) (height layout)).

(** Modelled from the spec: [overlapsRectangle] of [./utils] is not part of
    the sources at hand; "true iff the two axis-aligned rectangles
    intersect", edge-touching rectangles not overlapping. *)
Definition overlapsRectangle (a b : Rectangle num) : bool :=
  nltb (rect_x a) (nadd (rect_x b) (width b))
  && nltb (rect_x b) (nadd (rect_x a) (width a))
  && nltb (rect_y a) (nadd (rect_y b) (height b))
  && nltb (rect_y b) (nadd (rect_y a) (height a)).

(** Modelled from the spec: [applyOffset] of [./utils] is not part of the
    sources at hand; "translates a rectangle's origin by offset, size
    unchanged". *)
Definition applyOffset (layout : Rectangle num) (offset : Point num)
    : Rectangle num :=
  {| rect_x := nadd (rect_x layout) (pt_x offset);
     rect_y := nadd (rect_y layout) (pt_y offset);
     width := width layout;
     height := height layout |}.

(** Modelled from the spec: [getDistance] of [./utils] is not part of the
    sources at hand; "Euclidean norm". *)
Definition getDistance (dx dy : num) : num :=
  nsqrt (nadd (nmul dx dx) (nmul dy dy)).

End Geometry.

Arguments includesPoint : simpl never.
Arguments overlapsRectangle : simpl never.
Arguments applyOffset : simpl never.
Arguments getDistance : simpl never.

(** ** The gesture engine *)

Section Handlers.
Context {num : Type} `{Number num}.
Local Open Scope worklet_scope.

Abbreviation W := (Worklet num).

(** Lookup in a registry kept as the list of its entries. *)
Fixpoint lookup_layout (id : UniqueIdentifier)
    (layouts : list (UniqueIdentifier * Rectangle num))
    : option (Rectangle num) :=
  match layouts with
  | [] => None
  | (k, layout) :: rest =>
      if String.eqb k id then Some layout else lookup_layout id rest
  end.

(** The body of the [for ... of Object.entries(layouts)] loop of
    [findActiveLayoutId], over the entries that remain. *)
Fixpoint findActiveLayoutId_from (point : Point num)
    (entries : list (UniqueIdentifier * Rectangle num))
    : W (option UniqueIdentifier) :=
  match entries with
  | [] => ret None
  | (id, layout) :: rest =>
      offset <-- read (fun s => draggableOffsets s !! id) ;;
      opts <-- read (fun s => draggableOptions s !! id) ;;
      o <-- defined opts ;;
      let isDisabled := disabled o in
      if negb isDisabled then
        off <-- defined offset ;;
        content <-- read draggableContentOffset ;;
        if includesPoint layout
             {| pt_x := nadd (nsub (pt_x point) (pt_x off)) (pt_x content);
                pt_y := nadd (nsub (pt_y point) (pt_y off)) (pt_y content) |}
        then ret (Some id)
        else findActiveLayoutId_from point rest
      else findActiveLayoutId_from point rest
  end.

Definition findActiveLayoutId (point : Point num)
    : W (option UniqueIdentifier) :=
  layouts <-- read draggableLayouts ;;
  findActiveLayoutId_from point layouts.

Fixpoint findDroppableLayoutId_from (activeLayout : Rectangle num)
    (entries : list (UniqueIdentifier * Rectangle num))
    : W (option UniqueIdentifier) :=
  match entries with
  | [] => ret None
  | (id, layout) :: rest =>
      opts <-- read (fun s => droppableOptions s !! id) ;;
      o <-- defined opts ;;
      let isDisabled := drop_disabled o in
      if negb isDisabled && overlapsRectangle activeLayout layout
      then ret (Some id)
      else findDroppableLayoutId_from activeLayout rest
  end.

Definition findDroppableLayoutId (activeLayout : Rectangle num)
    : W (option UniqueIdentifier) :=
  layouts <-- read droppableLayouts ;;
  findDroppableLayoutId_from activeLayout layouts.

(** *** Delayed activation *)

Definition clearTimeout (h : positive)
    (ts : list (positive * UniqueIdentifier))
    : list (positive * UniqueIdentifier) :=
  filter (fun t => negb (Pos.eqb (fst t) h)) ts.

Definition clearActiveIdTimeout : W unit :=
  t <-- read timeout ;;
  match t with
  | Some h =>
      write (fun s => set_timer (timeout s) (clearTimeout h (timers s))
                        (nextTimer s) s)
  | None => ret tt
  end.

(** [timeout = setTimeout(..., delay)]: the callback is queued under a
    fresh handle; when it runs is the host's business. *)
Definition setActiveId (id : UniqueIdentifier) (delay : num) : W unit :=
  write (fun s => set_timer (Some (nextTimer s))
                    (timers s ++ [(nextTimer s, id)])
                    (Pos.succ (nextTimer s)) s).

(** [draggableStates.value[id].value = st] *)
Definition assign_state (id : UniqueIdentifier) (st : DraggableState)
    : W unit :=
  cur <-- read (fun s => draggableStates s !! id) ;;
  _ <-- defined cur ;;
  write (fun s => set_draggableStates (<[id := st]> (draggableStates s)) s).

(** What the timer runs on the UI thread once the delay has elapsed. *)
Definition activate (id : UniqueIdentifier) : W unit :=
  write (set_draggableActiveId (Some id)) ;;
  assign_state id dragging.

(** *** Writes through a captured offset object *)

Definition with_x (v : num) (p : Point num) : Point num :=
  {| pt_x := v; pt_y := pt_y p |}.
Definition with_y (v : num) (p : Point num) : Point num :=
  {| pt_x := pt_x p; pt_y := v |}.

(** [offsets[id].x.value], for the live and the resting offsets. *)
Definition live_offset (id : UniqueIdentifier) : W (Point num) :=
  o <-- read (fun s => draggableOffsets s !! id) ;; defined o.
Definition resting_offset (id : UniqueIdentifier) : W (Point num) :=
  o <-- read (fun s => draggableRestingOffsets s !! id) ;; defined o.

Definition assign_offset (id : UniqueIdentifier)
    (f : Point num -> Point num) : W unit :=
  p <-- live_offset id ;;
  write (fun s => set_draggableOffsets (<[id := f p]> (draggableOffsets s)) s).

Definition assign_resting (id : UniqueIdentifier)
    (f : Point num -> Point num) : W unit :=
  p <-- resting_offset id ;;
  write (fun s => set_draggableRestingOffsets
                    (<[id := f p]> (draggableRestingOffsets s)) s).

Definition cancelAnimationX (id : UniqueIdentifier) : W unit :=
  write (fun s => set_springs (delete id (springX s)) (springY s) s).
Definition cancelAnimationY (id : UniqueIdentifier) : W unit :=
  write (fun s => set_springs (springX s) (delete id (springY s)) s).

Definition call (c : Call num) : W unit :=
  write (fun s => set_calls (calls s ++ [c]) s).

(** Modelled from the spec: [animatePointWithSpring] of [./utils] is not
    part of the sources at hand; "drives two independent scalar spring
    animations concurrently (one per axis), each with its own initial
    velocity".  The settle callback is run by the host (event [Settle]). *)
Definition animatePointWithSpring (id : UniqueIdentifier)
    (target : num * num) (vx vy : num) : W unit :=
  _ <-- live_offset id ;;
  write (fun s => set_springs
                    (<[id := {| toValue := fst target; velocity := vx |}]>
                       (springX s))
                    (<[id := {| toValue := snd target; velocity := vy |}]>
                       (springY s)) s).

(** *** [Gesture.Pan().onBegin] *)

Definition onBegin (props : Props) (event : BeginEvent num) : W unit :=
  if prop_disabled props then ret tt else
  write (set_panGestureState (b_state event)) ;;
  layouts <-- read draggableLayouts ;;
  found <-- findActiveLayoutId {| pt_x := b_x event; pt_y := b_y event |} ;;
  match found with
  | None => ret tt
  | Some activeId =>
      activeLayout <-- defined (lookup_layout activeId layouts) ;;
      activeOffset <-- read (fun s => draggableOffsets s !! activeId) ;;
      restingOffset <-- read (fun s => draggableRestingOffsets s !! activeId) ;;
      st <-- read (fun s => draggableStates s !! activeId) ;;
      activeState <-- defined st ;;
      off <-- defined activeOffset ;;
      write (fun s => set_draggableInitialOffset
                        (with_x (pt_x off) (draggableInitialOffset s)) s) ;;
      write (fun s => set_draggableInitialOffset
                        (with_y (pt_y off) (draggableInitialOffset s)) s) ;;
      (if dragging_or_acting activeState then
         cancelAnimationX activeId ;;
         cancelAnimationY activeId
       else
         assign_resting activeId (with_x (pt_x off)) ;;
         assign_resting activeId (with_y (pt_y off))) ;;
      opts <-- read (fun s => draggableOptions s !! activeId) ;;
      o <-- defined opts ;;
      (if ngtb (activationDelay o) nzero then
         write (set_draggablePendingId (Some activeId)) ;;
         assign_state activeId pending ;;
         setActiveId activeId (activationDelay o)
       else
         write (set_draggableActiveId (Some activeId)) ;;
         write (set_draggableActiveLayout (Some (applyOffset activeLayout off))) ;;
         assign_state activeId dragging) ;;
      when (prop_onBegin props) (call (CallOnBegin event activeId activeLayout))
  end.

(** *** [Gesture.Pan().onUpdate] *)

Definition onUpdate (props : Props) (event : UpdateEvent num) : W unit :=
  write (set_panGestureState (u_state event)) ;;
  active <-- read draggableActiveId ;;
  pend <-- read draggablePendingId ;;
  layouts <-- read draggableLayouts ;;
  match active with
  | None =>
      match pend with
      | Some pendingId =>
          opts <-- read (fun s => draggableOptions s !! pendingId) ;;
          o <-- defined opts ;;
          let distance := getDistance (translationX event) (translationY event) in
          if ngtb distance (activationTolerance o) then
            clearActiveIdTimeout ;;
            write (set_draggablePendingId None)
          else ret tt
      | None => ret tt
      end
  | Some activeId =>
      init <-- read draggableInitialOffset ;;
      assign_offset activeId (with_x (nadd (pt_x init) (translationX event))) ;;
      assign_offset activeId (with_y (nadd (pt_y init) (translationY event))) ;;
      activeLayout <-- defined (lookup_layout activeId layouts) ;;
      off <-- live_offset activeId ;;
      write (set_draggableActiveLayout (Some (applyOffset activeLayout off))) ;;
      drop <-- findDroppableLayoutId (applyOffset activeLayout off) ;;
      write (set_droppableActiveId drop) ;;
      when (prop_onUpdate props)
        (call (CallOnUpdate event activeId (applyOffset activeLayout off) drop))
  end.

(** *** The settle callback given to [animatePointWithSpring] *)

Definition settle (activeId : UniqueIdentifier) : W unit :=
  gs <-- read panGestureState ;;
  abandon <--
    (if negb (GestureState_eqb gs END) && negb (GestureState_eqb gs FAILED)
     then
       st <-- read (fun s => draggableStates s !! activeId) ;;
       cur <-- defined st ;;
       ret (negb (DraggableState_eqb cur acting))
     else ret false) ;;
  if abandon then ret tt else assign_state activeId resting.

(** *** [Gesture.Pan().onFinalize] *)

Definition onFinalize (props : Props) (event : FinalizeEvent num) : W unit :=
  write (set_panGestureState (f_state event)) ;;
  active <-- read draggableActiveId ;;
  pend <-- read draggablePendingId ;;
  layouts <-- read draggableLayouts ;;
  match active with
  | None =>
      match pend with
      | Some _ =>
          clearActiveIdTimeout ;;
          write (set_draggablePendingId None)
      | None => ret tt
      end
  | Some activeId =>
      write (set_draggableActiveId None) ;;
      when (prop_onFinalize props)
        (activeLayout <-- defined (lookup_layout activeId layouts) ;;
         off <-- live_offset activeId ;;
         call (CallOnFinalize event activeId (applyOffset activeLayout off))) ;;
      when (negb (GestureState_eqb (f_state event) FAILED) && prop_onDragEnd props)
        (dropActiveId <-- read droppableActiveId ;;
         active_opts <-- read (fun s => draggableOptions s !! activeId) ;;
         over <-- match dropActiveId with
                  | Some d => o <-- read (fun s => droppableOptions s !! d) ;;
                              ret (OverOptions o)
                  | None => ret OverNull
                  end ;;
         call (CallOnDragEnd active_opts over)) ;;
      write (set_droppableActiveId None) ;;
      assign_state activeId acting ;;
      rest <-- resting_offset activeId ;;
      animatePointWithSpring activeId (pt_x rest, pt_y rest)
        (velocityX event) (velocityY event)
  end.

(** ** Event traces *)

(** What the host delivers: the three gesture callbacks, the timer of a
    delayed activation running, and a spring animation settling. *)
Inductive Event :=
  | Begin (e : BeginEvent num)
  | Update (e : UpdateEvent num)
  | Finalize (e : FinalizeEvent num)
  | TimerFires (h : positive)
  | Settle (id : UniqueIdentifier).

Definition timer_fires (h : positive) : W unit :=
  ts <-- read timers ;;
  match List.find (fun t => Pos.eqb (fst t) h) ts with
  | Some (_, id) =>
      write (fun s => set_timer (timeout s) (clearTimeout h (timers s))
                        (nextTimer s) s) ;;
      activate id
  | None => ret tt
  end.

Definition step (props : Props) (ev : Event) : W unit :=
  match ev with
  | Begin e => onBegin props e
  | Update e => onUpdate props e
  | Finalize e => onFinalize props e
  | TimerFires h => timer_fires h
  | Settle id => settle id
  end.

(** An exception ends the handler that raised it; the next event finds the
    store as the handler left it. *)
Fixpoint exec (props : Props) (evs : list Event) (s : Store num) : Store num :=
  match evs with
  | [] => s
  | ev :: rest => exec props rest (store_of (step props ev s))
  end.

End Handlers.

(** ** Vocabulary of the specification *)

Section Vocabulary.
Context {num : Type} `{Number num}.
Local Open Scope worklet_scope.

(** Handlers one after the other; the first exception ends the run. *)
Fixpoint run (props : Props) (evs : list (Event (num := num)))
    : Worklet num unit :=
  match evs with
  | [] => ret tt
  | ev :: rest => step props ev ;; run props rest
  end.

(** The pointer seen from an item: corrected by the content offset and by
    the item's own live offset. *)
Definition corrected (s : Store num) (point off : Point num) : Point num :=
  {| pt_x := nadd (nsub (pt_x point) (pt_x off)) (pt_x (draggableContentOffset s));
     pt_y := nadd (nsub (pt_y point) (pt_y off)) (pt_y (draggableContentOffset s)) |}.

(** A draggable entry that is not disabled and whose layout contains the
    corrected pointer. *)
Definition is_hit (s : Store num) (point : Point num)
    (entry : UniqueIdentifier * Rectangle num) : bool :=
  match draggableOptions s !! entry.1, draggableOffsets s !! entry.1 with
  | Some o, Some off =>
      negb (disabled o) && includesPoint entry.2 (corrected s point off)
  | _, _ => false
  end.

(** A droppable entry that is not disabled and whose layout overlaps the
    rectangle of the active item. *)
Definition is_over (s : Store num) (activeLayout : Rectangle num)
    (entry : UniqueIdentifier * Rectangle num) : bool :=
  match droppableOptions s !! entry.1 with
  | Some o => negb (drop_disabled o) && overlapsRectangle activeLayout entry.2
  | None => false
  end.

(** [entry] is the first entry of [entries] that satisfies [p]. *)
Definition first_match {A} (p : A -> bool) (entries : list A) (entry : A)
    : Prop :=
  exists before after,
    entries = before ++ entry :: after
    /\ Forall (fun e => p e = false) before
    /\ p entry = true.

Definition no_match {A} (p : A -> bool) (entries : list A) : Prop :=
  Forall (fun e => p e = false) entries.

(** Every id of a layouts registry is known to the other registries. *)
Definition draggables_registered (s : Store num) : Prop :=
  Forall (fun e : UniqueIdentifier * Rectangle num =>
            is_Some (draggableOptions s !! e.1)
            /\ is_Some (draggableOffsets s !! e.1))
         (draggableLayouts s).

Definition droppables_registered (s : Store num) : Prop :=
  Forall (fun e : UniqueIdentifier * Rectangle num =>
            is_Some (droppableOptions s !! e.1))
         (droppableLayouts s).

(** The draggable [id] has an entry in each of the five registries. *)
Record item_registered (s : Store num) (id : UniqueIdentifier)
    (layout : Rectangle num) (o : ItemOptions num) (off rest : Point num)
    (st : DraggableState) : Prop := {
  reg_layout : lookup_layout id (draggableLayouts s) = Some layout;
  reg_options : draggableOptions s !! id = Some o;
  reg_offset : draggableOffsets s !! id = Some off;
  reg_resting : draggableRestingOffsets s !! id = Some rest;
  reg_state : draggableStates s !! id = Some st
}.

(** [activationDelay > 0] *)
Definition delayed (o : ItemOptions num) : bool :=
  ngtb (activationDelay o) nzero.

(** What a Begin that selects [id] does to the store [s]. *)
Record begin_effect (props : Props) (ev : BeginEvent num)
    (id : UniqueIdentifier) (layout : Rectangle num) (o : ItemOptions num)
    (off : Point num) (st : DraggableState) (s s' : Store num) : Prop := {
  be_gesture : panGestureState s' = b_state ev;
  be_initial : draggableInitialOffset s' = off;
  be_offsets : draggableOffsets s' = draggableOffsets s;
  be_resting :
    draggableRestingOffsets s'
    = if dragging_or_acting st then draggableRestingOffsets s
      else <[id := off]> (draggableRestingOffsets s);
  be_springX :
    springX s' = if dragging_or_acting st then delete id (springX s)
                 else springX s;
  be_springY :
    springY s' = if dragging_or_acting st then delete id (springY s)
                 else springY s;
  be_pending :
    draggablePendingId s' = if delayed o then Some id else draggablePendingId s;
  be_active :
    draggableActiveId s' = if delayed o then draggableActiveId s else Some id;
  be_activeLayout :
    draggableActiveLayout s'
    = if delayed o then draggableActiveLayout s
      else Some (applyOffset layout off);
  be_states :
    draggableStates s'
    = <[id := if delayed o then pending else dragging]> (draggableStates s);
  be_timeout :
    timeout s' = if delayed o then Some (nextTimer s) else timeout s;
  be_timers :
    timers s' = if delayed o then timers s ++ [(nextTimer s, id)] else timers s;
  be_droppable : droppableActiveId s' = droppableActiveId s;
  be_options : draggableOptions s' = draggableOptions s;
  be_layouts : draggableLayouts s' = draggableLayouts s;
  be_calls :
    calls s'
    = calls s ++ (if prop_onBegin props then [CallOnBegin ev id layout] else [])
}.

(** The live offset that an Update computes from the translation. *)
Definition panned (s : Store num) (ev : UpdateEvent num) : Point num :=
  {| pt_x := nadd (pt_x (draggableInitialOffset s)) (translationX ev);
     pt_y := nadd (pt_y (draggableInitialOffset s)) (translationY ev) |}.

(** The movement of an Update stays within, or exceeds, a tolerance. *)
Definition exceeds (ev : UpdateEvent num) (o : ItemOptions num) : bool :=
  ngtb (getDistance (translationX ev) (translationY ev)) (activationTolerance o).

(** [id] waits for its delayed activation: it is the pending item, nothing
    is active, and the one timer of the host is the one [timeout] holds. *)
Record awaiting (s : Store num) (id : UniqueIdentifier) (h : positive)
    (o : ItemOptions num) : Prop := {
  aw_active : draggableActiveId s = None;
  aw_pending : draggablePendingId s = Some id;
  aw_timeout : timeout s = Some h;
  aw_timers : timers s = [(h, id)];
  aw_options : draggableOptions s !! id = Some o;
  aw_state : draggableStates s !! id = Some pending
}.

Definition is_dragging (s : Store num) (id : UniqueIdentifier) : bool :=
  match draggableStates s !! id with
  | Some dragging => true
  | _ => false
  end.

Definition is_begin (ev : Event (num := num)) : bool :=
  match ev with
  | Begin _ => true
  | _ => false
  end.

(** How many times the item [id] goes from a state that is not [dragging]
    to [dragging] along a trace. *)
Fixpoint dragging_entries (props : Props) (id : UniqueIdentifier)
    (evs : list (Event (num := num))) (s : Store num) : nat :=
  match evs with
  | [] => 0
  | ev :: rest =>
      let s' := store_of (step props ev s) in
      (if negb (is_dragging s id) && is_dragging s' id then 1 else 0)
      + dragging_entries props id rest s'
  end.

(** The outcome [o] of a worklet that does not write, seen from the
    store [s]. *)
Definition rebase {A} (s : Store num) (o : Outcome num A) : Outcome num A :=
  match o with
  | Done a _ => Done a s
  | Thrown _ => Thrown s
  end.

(** A worklet relates the store it starts from to the store it leaves by
    [R], whether it returns or throws. *)
Definition frame {A} (R : relation (Store num)) (m : Worklet num A) : Prop :=
  forall s, R s (store_of (m s)).

(** The resting offsets are left as they are. *)
Definition same_resting : relation (Store num) :=
  fun s s' => draggableRestingOffsets s' = draggableRestingOffsets s.

(** No timer is added to an empty queue, the item [id] does not enter
    [dragging], and no item becomes active. *)
Definition quiet (id : UniqueIdentifier) : relation (Store num) :=
  fun s s' =>
    (timers s = [] -> timers s' = [])
    /\ (is_dragging s' id = true -> is_dragging s id = true)
    /\ (draggableActiveId s = None -> draggableActiveId s' = None).

(** The pointer of a Begin event. *)
Definition pointer (ev : BeginEvent num) : Point num :=
  {| pt_x := b_x ev; pt_y := b_y ev |}.

(** The timers of the host once [clearActiveIdTimeout] has run. *)
Definition cleared (s : Store num) : list (positive * UniqueIdentifier) :=
  match timeout s with
  | Some h => clearTimeout h (timers s)
  | None => timers s
  end.

(** What [onDragEnd] receives as [over]. *)
Definition over_of (s : Store num) : Over :=
  match droppableActiveId s with
  | Some d => OverOptions (droppableOptions s !! d)
  | None => OverNull
  end.


End Vocabulary.

(** ** A concrete provider

    Two draggables and one droppable on integer coordinates: [A] activates
    at once, [L] after a long press of 500 ms with a tolerance of 5. *)

Module Scenario.
Local Open Scope Z_scope.
Local Open Scope string_scope.

Definition rectA : Rectangle Z :=
  {| rect_x := 0; rect_y := 0; width := 100; height := 100 |}.
Definition rectL : Rectangle Z :=
  {| rect_x := 0; rect_y := 200; width := 100; height := 100 |}.
Definition rectB : Rectangle Z :=
  {| rect_x := 150; rect_y := 0; width := 100; height := 100 |}.

Definition optionsA : ItemOptions Z :=
  {| disabled := false; activationDelay := 0; activationTolerance := 0;
     data := "A" |}.
Definition optionsL : ItemOptions Z :=
  {| disabled := false; activationDelay := 500; activationTolerance := 5;
     data := "L" |}.
Definition optionsB : DropOptions :=
  {| drop_disabled := false; drop_data := "B" |}.

Definition origin : Point Z := {| pt_x := 0; pt_y := 0 |}.

Definition at_rest : Store Z :=
  {| draggableLayouts := [("A", rectA); ("L", rectL)];
     droppableLayouts := [("B", rectB)];
     draggableOptions := {[ "A" := optionsA; "L" := optionsL ]};
     droppableOptions := {[ "B" := optionsB ]};
     draggableOffsets := {[ "A" := origin; "L" := origin ]};
     draggableRestingOffsets := {[ "A" := origin; "L" := origin ]};
     draggableStates := {[ "A" := resting; "L" := resting ]};
     draggablePendingId := None;
     draggableActiveId := None;
     droppableActiveId := None;
     draggableActiveLayout := None;
     draggableInitialOffset := origin;
     draggableContentOffset := origin;
     panGestureState := UNDETERMINED;
     timeout := None;
     timers := [];
     nextTimer := 1%positive;
     springX := ∅;
     springY := ∅;
     calls := [] |}.

(** [at_rest] with a layout whose id no other registry knows, iterated
    first, and a droppable layout of the same kind. *)
Definition with_ghost : Store Z :=
  {| draggableLayouts := ("ghost", rectB) :: draggableLayouts at_rest;
     droppableLayouts := ("phantom", rectA) :: droppableLayouts at_rest;
     draggableOptions := draggableOptions at_rest;
     droppableOptions := droppableOptions at_rest;
     draggableOffsets := draggableOffsets at_rest;
     draggableRestingOffsets := draggableRestingOffsets at_rest;
     draggableStates := draggableStates at_rest;
     draggablePendingId := None;
     draggableActiveId := None;
     droppableActiveId := None;
     draggableActiveLayout := None;
     draggableInitialOffset := origin;
     draggableContentOffset := origin;
     panGestureState := UNDETERMINED;
     timeout := None;
     timers := [];
     nextTimer := 1%positive;
     springX := ∅;
     springY := ∅;
     calls := [] |}.

Definition all_callbacks : Props :=
  {| prop_disabled := false; prop_onBegin := true; prop_onUpdate := true;
     prop_onFinalize := true; prop_onDragEnd := true |}.

Definition press (x y : Z) : BeginEvent Z :=
  {| b_state := BEGAN; b_x := x; b_y := y |}.
Definition pan (tx ty : Z) : UpdateEvent Z :=
  {| u_state := ACTIVE; translationX := tx; translationY := ty |}.
Definition release : FinalizeEvent Z :=
  {| f_state := END; velocityX := 0; velocityY := 0 |}.

(** [A] is being dragged: pressed at (50, 50), nothing else yet. *)
Definition dragging_A : Store Z :=
  exec all_callbacks [Begin (press 50 50)] at_rest.

(** [A] was dragged 100 to the right, over [B]. *)
Definition over_B : Store Z :=
  exec all_callbacks [Update (pan 100 0)] dragging_A.

(** [A] was dragged 10 to the right and released: it is [acting], its live
    offset is still (10, 0). *)
Definition released_A : Store Z :=
  exec all_callbacks
    [Begin (press 50 50); Update (pan 10 0); Finalize release] at_rest.

(** [L] is pressed and waits for its long press to elapse. *)
Definition pressed_L : Store Z :=
  exec all_callbacks [Begin (press 50 250)] at_rest.

(** The pending id names an item that has left the options registry. *)
Definition pending_ghost : Store Z :=
  set_draggablePendingId (Some "ghost") at_rest.

(** The active id names an item that has left the offsets registry. *)
Definition active_ghost : Store Z :=
  set_draggableActiveId (Some "ghost") at_rest.

End Scenario.

(** ** Vocabulary for whole gestures *)

Section Gestures.
Context {num : Type} `{Number num}.

(** The field [f] of the store is left as it is. *)
Definition unchanged {B} (f : Store num -> B) : relation (Store num) :=
  fun s s' => f s' = f s.

(** The registries that the registration of items owns. *)
Definition read_only : relation (Store num) :=
  fun s s' =>
    draggableLayouts s' = draggableLayouts s
    /\ droppableLayouts s' = droppableLayouts s
    /\ draggableOptions s' = draggableOptions s
    /\ droppableOptions s' = droppableOptions s
    /\ draggableContentOffset s' = draggableContentOffset s.

(** The loop of [findActiveLayoutId] can read what it needs of a draggable
    entry: its options, and its live offset unless the entry is disabled. *)
Definition readable (s : Store num)
    (entry : UniqueIdentifier * Rectangle num) : bool :=
  match draggableOptions s !! entry.1 with
  | Some o =>
      if disabled o then true
      else match draggableOffsets s !! entry.1 with
           | Some _ => true
           | None => false
           end
  | None => false
  end.

(** The loop of [findActiveLayoutId] goes no farther than this entry. *)
Definition stops (s : Store num) (point : Point num)
    (entry : UniqueIdentifier * Rectangle num) : bool :=
  negb (readable s entry) || is_hit s point entry.

(** The options of a droppable entry are there to be read. *)
Definition drop_readable (s : Store num)
    (entry : UniqueIdentifier * Rectangle num) : bool :=
  match droppableOptions s !! entry.1 with
  | Some _ => true
  | None => false
  end.

Definition drop_stops (s : Store num) (activeLayout : Rectangle num)
    (entry : UniqueIdentifier * Rectangle num) : bool :=
  negb (drop_readable s entry) || is_over s activeLayout entry.


(** Nothing is active and the host has no timer to run. *)
Definition idle (s : Store num) : Prop :=
  timers s = [] /\ draggableActiveId s = None.




(** The live offset after the Updates [ups] of a drag whose translation
    origin is [init]: that of the last Update, or [init] itself. *)
Definition panned_to (init : Point num) (ups : list (UpdateEvent num))
    : Point num :=
  match last ups with
  | Some ev =>
      {| pt_x := nadd (pt_x init) (translationX ev);
         pt_y := nadd (pt_y init) (translationY ev) |}
  | None => init
  end.

(** The item [id] is being dragged from the translation origin [init],
    with [home] as resting offset. *)
Record dragging_item (s : Store num) (id : UniqueIdentifier)
    (layout : Rectangle num) (o : ItemOptions num) (init home : Point num)
    : Prop := {
  di_active : draggableActiveId s = Some id;
  di_layout : lookup_layout id (draggableLayouts s) = Some layout;
  di_options : draggableOptions s !! id = Some o;
  di_resting : draggableRestingOffsets s !! id = Some home;
  di_state : draggableStates s !! id = Some dragging;
  di_initial : draggableInitialOffset s = init;
  di_droppables : droppables_registered s
}.

End Gestures.

(** ** What the host does between the events of the gesture *)

Section Host.
Context {num : Type} `{Number num}.

(** [useMemo(() => { ... }, [disabled])] runs again when [disabled]
    changes.  The handlers that run from then on belong to a new closure,
    whose [let timeout] is null; the timers that the old closure queued
    stay queued. *)
Definition rebuilt (s : Store num) : Store num :=
  set_timer None (timers s) (nextTimer s) s.

Definition toggle_disabled (props : Props) : Props :=
  {| prop_disabled := negb (prop_disabled props);
     prop_onBegin := prop_onBegin props;
     prop_onUpdate := prop_onUpdate props;
     prop_onFinalize := prop_onFinalize props;
     prop_onDragEnd := prop_onDragEnd props |}.

(** Modelled from the spec: the animation primitive is not part of the
    sources at hand; "animates the scalar toward target".  A frame of the
    springs of the item [id] writes the axes of its live offset on which a
    spring runs; the values it writes are up to the spring. *)
Definition spring_frame (id : UniqueIdentifier) (p : Point num)
    (s : Store num) : Store num :=
  match draggableOffsets s !! id with
  | Some cur =>
      set_draggableOffsets
        (<[id := {| pt_x := match springX s !! id with
                            | Some _ => pt_x p
                            | None => pt_x cur
                            end;
                    pt_y := match springY s !! id with
                            | Some _ => pt_y p
                            | None => pt_y cur
                            end |}]> (draggableOffsets s)) s
  | None => s
  end.

(** The events of the engine, a change of the prop [disabled], and the
    frames of the running springs. *)
Inductive HostEvent :=
  | Gesture (ev : Event (num := num))
  | DisabledChanges
  | SpringFrame (id : UniqueIdentifier) (p : Point num).

Definition host_step (st : Props * Store num) (hev : HostEvent)
    : Props * Store num :=
  match hev with
  | Gesture ev => (st.1, store_of (step st.1 ev st.2))
  | DisabledChanges => (toggle_disabled st.1, rebuilt st.2)
  | SpringFrame id p => (st.1, spring_frame id p st.2)
  end.

Fixpoint host_exec (hevs : list HostEvent) (st : Props * Store num)
    : Props * Store num :=
  match hevs with
  | [] => st
  | hev :: rest => host_exec rest (host_step st hev)
  end.


End Host.

(** ** The hooks [useLatestValue] and [useLatestSharedValue]

    JavaScript values are the elements of a type [V] whose equality is
    [Object.is]; [strict_ne] is [!==], of which nothing is assumed.  What
    React keeps of one call of a hook between two renders is the cell made
    by [useRef] (or [useSharedValue]) and the dependency list of the last
    render; [useLayoutEffect] runs its effect after the first render and
    after every render whose dependency list differs from the last one. *)

Module Hooks.
Section Latest.
Context {V : Type} `{EqDecision V}.
Variable strict_ne : V -> V -> bool.

Record Cell := { current : V; memo : list V }.

(** [areHookInputsEqual] of React: the two lists agree on the positions
    they both have. *)
Fixpoint areHookInputsEqual (next prev : list V) : bool :=
  match next, prev with
  | n :: next', p :: prev' =>
      bool_decide (n = p) && areHookInputsEqual next' prev'
  | _, _ => true
  end.

(** The effect of both hooks:
    [if (valueRef.current !== value) valueRef.current = value]. *)
Definition effect (value : V) (cur : V) : V :=
  if strict_ne cur value then value else cur.

(** First render: [useRef(value)], then the effect. *)
Definition mount (value : V) (dependencies : list V) : Cell :=
  {| current := effect value value; memo := dependencies |}.

(** A later render. *)
Definition rerender (c : Cell) (value : V) (dependencies : list V) : Cell :=
  {| current := if areHookInputsEqual dependencies (memo c) then current c
                else effect value (current c);
     memo := dependencies |}.

(** One render of [useLatestValue(value, dependencies = [value])]; [cell]
    is what the renders before have left, [None] at the first render. *)
Definition useLatestValue (cell : option Cell) (value : V)
    (dependencies : option (list V)) : Cell :=
  let dependencies := default [value] dependencies in
  match cell with
  | None => mount value dependencies
  | Some c => rerender c value dependencies
  end.

(** [useLatestSharedValue] is [useLatestValue] with the cell made by
    [useSharedValue]. *)
Definition useLatestSharedValue (cell : option Cell) (value : V)
    (dependencies : option (list V)) : Cell :=
  let dependencies := default [value] dependencies in
  match cell with
  | None => mount value dependencies
  | Some c => rerender c value dependencies
  end.

(** The renders of a component, each with the value and the dependency
    list it passes to the hook. *)
Fixpoint rendered (hook : option Cell -> V -> option (list V) -> Cell)
    (cell : option Cell) (renders : list (V * option (list V)))
    : option Cell :=
  match renders with
  | [] => cell
  | (value, dependencies) :: rest =>
      rendered hook (Some (hook cell value dependencies)) rest
  end.

End Latest.
End Hooks.

(** ** More of the concrete provider *)

Module Traces.
Import Scenario.
Local Open Scope Z_scope.
Local Open Scope string_scope.

(** [A] was dragged over [B] and released, and its spring has settled. *)
Definition whole_drag : list (Event (num := Z)) :=
  [Begin (press 50 50); Update (pan 30 0); Update (pan 100 0);
   Finalize release; Settle "A"].


(** [L] is pressed, [disabled] changes while it waits, then the pointer
    moves beyond the tolerance of [L] and the timer of [L] runs. *)
Definition long_press_across_a_rebuild : list (HostEvent (num := Z)) :=
  [Gesture (Begin (press 50 250)); DisabledChanges;
   Gesture (Update (pan 6 8)); Gesture (TimerFires 1%positive)].

Definition disabled_provider : Props :=
  {| prop_disabled := true; prop_onBegin := true; prop_onUpdate := true;
     prop_onFinalize := true; prop_onDragEnd := true |}.

End Traces.

(** * Properties of the engine *)

Section Proofs.
Context {num : Type} `{Number num}.
Local Open Scope worklet_scope.
Implicit Types (s : Store num) (id : UniqueIdentifier).

Ltac unfold_worklet :=
  cbv [bind read write ret defined throw when assign_state activate
       live_offset resting_offset assign_offset assign_resting
       cancelAnimationX cancelAnimationY call setActiveId
       clearActiveIdTimeout animatePointWithSpring] in *;
  cbn in *.

(** Rewrite with the registry facts at hand until the handler has run. *)
Ltac lookups :=
  cbn;
  repeat (first
    [ match goal with
      | E : ?m !! ?k = _ |- context [?m !! ?k] => rewrite E
      | E : lookup_layout ?k ?l = _ |- context [lookup_layout ?k ?l] =>
          rewrite E
      end
    | rewrite lookup_insert_eq ];
    cbn).

(** ** Hit testing *)

(** Hit testing reads the store and never writes it. *)
Lemma findActiveLayoutId_from_rebase point entries s1 s2 :
  draggableOptions s1 = draggableOptions s2 ->
  draggableOffsets s1 = draggableOffsets s2 ->
  draggableContentOffset s1 = draggableContentOffset s2 ->
  findActiveLayoutId_from point entries s1
  = rebase s1 (findActiveLayoutId_from point entries s2).
Proof.
  intros Ho Hf Hc.
  induction entries as [|[id layout] entries IH]; cbn; [reflexivity|].
  unfold_worklet. rewrite Ho, Hf.
  destruct (draggableOptions s2 !! id) as [o|]; cbn; [|reflexivity].
  destruct (disabled o); cbn; [exact IH|].
  destruct (draggableOffsets s2 !! id) as [off|]; cbn; [|reflexivity].
  rewrite Hc. destruct (includesPoint _ _); [reflexivity|exact IH].
Qed.

Lemma findDroppableLayoutId_from_rebase activeLayout entries s1 s2 :
  droppableOptions s1 = droppableOptions s2 ->
  findDroppableLayoutId_from activeLayout entries s1
  = rebase s1 (findDroppableLayoutId_from activeLayout entries s2).
Proof.
  intros Ho.
  induction entries as [|[id layout] entries IH]; cbn; [reflexivity|].
  unfold_worklet. rewrite Ho.
  destruct (droppableOptions s2 !! id) as [o|]; cbn; [|reflexivity].
  destruct (negb (drop_disabled o) && overlapsRectangle _ _);
    [reflexivity|exact IH].
Qed.

Lemma findActiveLayoutId_from_first point entries s entry :
  first_match (is_hit s point) entries entry ->
  Forall (fun e : UniqueIdentifier * Rectangle num =>
            is_Some (draggableOptions s !! e.1)
            /\ is_Some (draggableOffsets s !! e.1)) entries ->
  findActiveLayoutId_from point entries s = Done (Some entry.1) s.
Proof.
  intros (before & after & -> & Hbefore & Hhit).
  induction Hbefore as [|[id layout] before Hmiss _ IH]; intros Hreg.
  - destruct entry as [id layout]. cbn in *. unfold is_hit in Hhit. cbn in Hhit.
    unfold_worklet.
    destruct (draggableOptions s !! id) as [o|]; [|discriminate].
    destruct (draggableOffsets s !! id) as [off|]; [|discriminate].
    destruct (disabled o); cbn in *; [discriminate|].
    unfold corrected in Hhit. rewrite Hhit. reflexivity.
  - apply Forall_cons in Hreg as [[[o Ho] [off Hoff]] Hreg].
    cbn in *. unfold is_hit in Hmiss. cbn in Hmiss.
    unfold_worklet. rewrite Ho in *. rewrite Hoff in *.
    destruct (disabled o); cbn in *; [apply IH, Hreg|].
    unfold corrected in Hmiss. rewrite Hmiss. apply IH, Hreg.
Qed.

Lemma findActiveLayoutId_from_none point entries s :
  no_match (is_hit s point) entries ->
  Forall (fun e : UniqueIdentifier * Rectangle num =>
            is_Some (draggableOptions s !! e.1)
            /\ is_Some (draggableOffsets s !! e.1)) entries ->
  findActiveLayoutId_from point entries s = Done None s.
Proof.
  induction 1 as [|[id layout] rest Hmiss _ IH]; intros Hreg; [reflexivity|].
  apply Forall_cons in Hreg as [[[o Ho] [off Hoff]] Hreg].
  cbn in *. unfold is_hit in Hmiss. cbn in Hmiss.
  unfold_worklet. rewrite Ho in *. rewrite Hoff in *.
  destruct (disabled o); cbn in *; [apply IH, Hreg|].
  unfold corrected in Hmiss. rewrite Hmiss. apply IH, Hreg.
Qed.

(** An id that hit testing returns is an id of the layouts registry, is not
    disabled and has a live offset. *)
Lemma findActiveLayoutId_from_found point entries s id :
  findActiveLayoutId_from point entries s = Done (Some id) s ->
  is_Some (lookup_layout id entries)
  /\ (exists o, draggableOptions s !! id = Some o /\ disabled o = false)
  /\ is_Some (draggableOffsets s !! id).
Proof.
  induction entries as [|[k layout] entries IH]; cbn; [discriminate|].
  unfold_worklet. intros Hfound.
  destruct (String.eqb_spec k id) as [->|Hne].
  - split; [eauto|].
    destruct (draggableOptions s !! id) as [o|] eqn:Ho; [|discriminate].
    destruct (disabled o) eqn:Hd; cbn in *.
    + destruct (IH Hfound) as (_ & (o' & Ho' & Hd') & Hoff).
      split; [|exact Hoff]. exists o'. split; [|exact Hd']. exact Ho'.
    + destruct (draggableOffsets s !! id) as [off|]; [|discriminate].
      split; eauto.
  - destruct (draggableOptions s !! k) as [o|] eqn:Ho; [|discriminate].
    destruct (disabled o) eqn:Hd; cbn in *; [apply IH, Hfound|].
    destruct (draggableOffsets s !! k) as [off|]; [|discriminate].
    destruct (includesPoint _ _); [congruence|apply IH, Hfound].
Qed.

Lemma with_y_with_x (p q : Point num) :
  with_y (pt_y p) (with_x (pt_x p) q) = p.
Proof. destruct p; reflexivity. Qed.

(** ** Begin *)

Lemma onBegin_disabled props ev s :
  prop_disabled props = true -> onBegin props ev s = Done tt s.
Proof. intros Hd. unfold onBegin. rewrite Hd. reflexivity. Qed.

Lemma onBegin_no_item props ev s :
  prop_disabled props = false ->
  findActiveLayoutId (pointer ev) s = Done None s ->
  onBegin props ev s = Done tt (set_panGestureState (b_state ev) s).
Proof.
  intros Hen Hfind. unfold onBegin, findActiveLayoutId, pointer in *.
  rewrite Hen.
  unfold_worklet.
  rewrite (findActiveLayoutId_from_rebase _ _ _ s) by reflexivity.
  rewrite Hfind. reflexivity.
Qed.

Lemma onBegin_selected props ev s id layout o off rest st :
  prop_disabled props = false ->
  findActiveLayoutId (pointer ev) s = Done (Some id) s ->
  item_registered s id layout o off rest st ->
  exists s', onBegin props ev s = Done tt s'
             /\ begin_effect props ev id layout o off st s s'.
Proof.
  intros Hen Hfind [Hlay Hopt Hoff Hrest Hst].
  unfold onBegin, findActiveLayoutId, pointer in *. rewrite Hen.
  unfold_worklet.
  rewrite (findActiveLayoutId_from_rebase _ _ _ s) by reflexivity.
  rewrite Hfind. unfold delayed. lookups.
  destruct (dragging_or_acting st) eqn:Hst'; lookups;
    destruct (ngtb (activationDelay o) nzero) eqn:Hdelay; lookups;
    destruct (prop_onBegin props) eqn:Hcb; cbn;
    (eexists; split; [reflexivity|]);
    constructor; unfold delayed; cbn;
    rewrite ?Hst', ?Hdelay, ?Hcb, ?app_nil_r, ?insert_insert_eq,
      ?with_y_with_x;
    reflexivity.
Qed.

(** ** Update *)

Lemma onUpdate_idle props ev s :
  draggableActiveId s = None ->
  draggablePendingId s = None ->
  onUpdate props ev s = Done tt (set_panGestureState (u_state ev) s).
Proof.
  intros Ha Hp. unfold onUpdate. unfold_worklet. rewrite Ha, Hp. reflexivity.
Qed.

Lemma onUpdate_pending props ev s id o :
  draggableActiveId s = None ->
  draggablePendingId s = Some id ->
  draggableOptions s !! id = Some o ->
  onUpdate props ev s
  = Done tt
      (if exceeds ev o
       then set_draggablePendingId None
              (set_timer (timeout s) (cleared s) (nextTimer s)
                 (set_panGestureState (u_state ev) s))
       else set_panGestureState (u_state ev) s).
Proof.
  intros Ha Hp Ho. unfold onUpdate, exceeds, cleared. unfold_worklet.
  rewrite Ha, Hp. lookups.
  destruct (ngtb _ _); cbn; [|reflexivity].
  destruct (timeout s); reflexivity.
Qed.

Lemma onUpdate_pending_unknown props ev s id :
  draggableActiveId s = None ->
  draggablePendingId s = Some id ->
  draggableOptions s !! id = None ->
  onUpdate props ev s = Thrown (set_panGestureState (u_state ev) s).
Proof.
  intros Ha Hp Ho. unfold onUpdate. unfold_worklet.
  rewrite Ha, Hp. lookups. reflexivity.
Qed.

Lemma onUpdate_active_unknown props ev s id :
  draggableActiveId s = Some id ->
  draggableOffsets s !! id = None ->
  onUpdate props ev s = Thrown (set_panGestureState (u_state ev) s).
Proof.
  intros Ha Ho. unfold onUpdate. unfold_worklet.
  rewrite Ha. lookups. reflexivity.
Qed.

Lemma with_y_with_x_panned s ev (p : Point num) :
  with_y (nadd (pt_y (draggableInitialOffset s)) (translationY ev))
    (with_x (nadd (pt_x (draggableInitialOffset s)) (translationX ev)) p)
  = panned s ev.
Proof. reflexivity. Qed.

Lemma onUpdate_active props ev s id layout off drop :
  draggableActiveId s = Some id ->
  draggableOffsets s !! id = Some off ->
  lookup_layout id (draggableLayouts s) = Some layout ->
  findDroppableLayoutId (applyOffset layout (panned s ev)) s = Done drop s ->
  onUpdate props ev s
  = Done tt
      (set_calls
         (calls s ++
          if prop_onUpdate props
          then [CallOnUpdate ev id (applyOffset layout (panned s ev)) drop]
          else [])
         (set_droppableActiveId drop
            (set_draggableActiveLayout
               (Some (applyOffset layout (panned s ev)))
               (set_draggableOffsets
                  (<[id := panned s ev]> (draggableOffsets s))
                  (set_panGestureState (u_state ev) s))))).
Proof.
  intros Ha Hoff Hlay Hdrop. unfold onUpdate, findDroppableLayoutId in *.
  unfold_worklet. rewrite Ha. lookups.
  rewrite with_y_with_x_panned.
  rewrite (findDroppableLayoutId_from_rebase _ _ _ s) by reflexivity.
  rewrite Hdrop. cbn. rewrite insert_insert_eq.
  destruct (prop_onUpdate props); cbn; rewrite ?app_nil_r; reflexivity.
Qed.

(** The scan of the droppables returns the first droppable that is over. *)
Lemma findDroppableLayoutId_from_first activeLayout entries s entry :
  first_match (is_over s activeLayout) entries entry ->
  Forall (fun e : UniqueIdentifier * Rectangle num =>
            is_Some (droppableOptions s !! e.1)) entries ->
  findDroppableLayoutId_from activeLayout entries s = Done (Some entry.1) s.
Proof.
  intros (before & after & -> & Hbefore & Hhit).
  induction Hbefore as [|[id layout] before Hmiss _ IH]; intros Hreg.
  - destruct entry as [id layout]. cbn in *. unfold is_over in Hhit.
    cbn in Hhit. unfold_worklet.
    destruct (droppableOptions s !! id) as [o|]; [|discriminate].
    cbn. rewrite Hhit. reflexivity.
  - apply Forall_cons in Hreg as [[o Ho] Hreg].
    cbn in *. unfold is_over in Hmiss. cbn in Hmiss.
    unfold_worklet. rewrite Ho in *. cbn. rewrite Hmiss. apply IH, Hreg.
Qed.

Lemma findDroppableLayoutId_from_none activeLayout entries s :
  no_match (is_over s activeLayout) entries ->
  Forall (fun e : UniqueIdentifier * Rectangle num =>
            is_Some (droppableOptions s !! e.1)) entries ->
  findDroppableLayoutId_from activeLayout entries s = Done None s.
Proof.
  induction 1 as [|[id layout] rest Hmiss _ IH]; intros Hreg; [reflexivity|].
  apply Forall_cons in Hreg as [[o Ho] Hreg].
  cbn in *. unfold is_over in Hmiss. cbn in Hmiss.
  unfold_worklet. rewrite Ho in *. cbn. rewrite Hmiss. apply IH, Hreg.
Qed.

(** With every droppable registered the scan returns. *)
Lemma findDroppableLayoutId_total activeLayout s :
  droppables_registered s ->
  exists drop, findDroppableLayoutId activeLayout s = Done drop s.
Proof.
  unfold droppables_registered, findDroppableLayoutId. unfold_worklet.
  generalize (droppableLayouts s) as entries.
  induction entries as [|[id layout] entries IH]; intros Hreg; cbn.
  - eexists; reflexivity.
  - apply Forall_cons in Hreg as [[o Ho] Hreg]. cbn in Ho.
    unfold_worklet. rewrite Ho. cbn.
    destruct (negb (drop_disabled o) && overlapsRectangle _ _);
      [eexists; reflexivity|apply IH, Hreg].
Qed.

(** ** Finalize *)

Lemma onFinalize_idle props ev s :
  draggableActiveId s = None ->
  draggablePendingId s = None ->
  onFinalize props ev s = Done tt (set_panGestureState (f_state ev) s).
Proof.
  intros Ha Hp. unfold onFinalize. unfold_worklet. rewrite Ha, Hp.
  reflexivity.
Qed.


Lemma onFinalize_active props ev s id layout o off rest st :
  draggableActiveId s = Some id ->
  item_registered s id layout o off rest st ->
  onFinalize props ev s
  = Done tt
      (set_springs
         (<[id := {| toValue := pt_x rest; velocity := velocityX ev |}]>
            (springX s))
         (<[id := {| toValue := pt_y rest; velocity := velocityY ev |}]>
            (springY s))
         (set_draggableStates (<[id := acting]> (draggableStates s))
            (set_droppableActiveId None
               (set_calls
                  ((calls s ++
                    if prop_onFinalize props
                    then [CallOnFinalize ev id (applyOffset layout off)]
                    else []) ++
                   if negb (GestureState_eqb (f_state ev) FAILED)
                      && prop_onDragEnd props
                   then [CallOnDragEnd (Some o) (over_of s)]
                   else [])
                  (set_draggableActiveId None
                     (set_panGestureState (f_state ev) s)))))).
Proof.
  intros Ha [Hlay Hopt Hoff Hrest Hst]. unfold onFinalize, over_of.
  unfold_worklet. rewrite Ha. cbn.
  destruct (prop_onFinalize props); lookups;
    destruct (negb (GestureState_eqb (f_state ev) FAILED)
              && prop_onDragEnd props); lookups;
    destruct (droppableActiveId s); lookups;
    rewrite ?app_nil_r; reflexivity.
Qed.

(** ** The timer of the delayed activation *)

Lemma timer_fires_none h s :
  List.find (fun t => Pos.eqb (fst t) h) (timers s) = None ->
  timer_fires h s = Done tt s.
Proof. intros Hf. unfold timer_fires. unfold_worklet. rewrite Hf. reflexivity. Qed.

Lemma timer_fires_some h h' id st s :
  List.find (fun t => Pos.eqb (fst t) h) (timers s) = Some (h', id) ->
  draggableStates s !! id = Some st ->
  timer_fires h s
  = Done tt (set_draggableStates (<[id := dragging]> (draggableStates s))
               (set_draggableActiveId (Some id)
                  (set_timer (timeout s) (clearTimeout h (timers s))
                     (nextTimer s) s))).
Proof.
  intros Hf Hst. unfold timer_fires. unfold_worklet. rewrite Hf. lookups.
  reflexivity.
Qed.

(** ** The settle callback *)

Lemma settle_abandoned id st s :
  draggableStates s !! id = Some st ->
  panGestureState s <> END ->
  panGestureState s <> FAILED ->
  st <> acting ->
  settle id s = Done tt s.
Proof.
  intros Hst He Hf Ha. unfold settle. unfold_worklet.
  destruct (panGestureState s) eqn:Hg; try congruence; lookups;
    destruct st; try congruence; lookups; rewrite ?Hg; reflexivity.
Qed.

Lemma settle_resting id st s :
  draggableStates s !! id = Some st ->
  panGestureState s = END \/ panGestureState s = FAILED \/ st = acting ->
  settle id s
  = Done tt (set_draggableStates (<[id := resting]> (draggableStates s)) s).
Proof.
  intros Hst Hcase. unfold settle. unfold_worklet.
  destruct (panGestureState s) eqn:Hg; lookups; rewrite ?Hg;
    try reflexivity;
    destruct Hcase as [?|[?| ->]]; try discriminate;
    lookups; rewrite ?Hg; reflexivity.
Qed.

(** ** Frame rules *)

Section Frame.
Context (R : relation (Store num)) `{!PreOrder R}.

Lemma frame_ret {A} (a : A) : frame R (ret a).
Proof. intros s. reflexivity. Qed.

Lemma frame_read {A} (f : Store num -> A) : frame R (read f).
Proof. intros s. reflexivity. Qed.

Lemma frame_throw {A} : frame R (throw (A := A)).
Proof. intros s. reflexivity. Qed.

Lemma frame_defined {A} (o : option A) : frame R (defined o).
Proof. destruct o; intros s; reflexivity. Qed.

Lemma frame_write (g : Store num -> Store num) :
  (forall s, R s (g s)) -> frame R (write g).
Proof. intros Hg s. apply Hg. Qed.

Lemma frame_bind {A B} (m : Worklet num A) (k : A -> Worklet num B) :
  frame R m -> (forall a, frame R (k a)) -> frame R (bind m k).
Proof.
  intros Hm Hk s. unfold bind. specialize (Hm s).
  destruct (m s) as [a s'|s']; cbn in *; [|exact Hm].
  etransitivity; [exact Hm|apply Hk].
Qed.

Lemma frame_findActiveLayoutId_from point entries :
  frame R (findActiveLayoutId_from point entries).
Proof.
  intros s. rewrite (findActiveLayoutId_from_rebase _ _ s s) by reflexivity.
  destruct (findActiveLayoutId_from point entries s); reflexivity.
Qed.

Lemma frame_findDroppableLayoutId_from activeLayout entries :
  frame R (findDroppableLayoutId_from activeLayout entries).
Proof.
  intros s. rewrite (findDroppableLayoutId_from_rebase _ _ s s) by reflexivity.
  destruct (findDroppableLayoutId_from activeLayout entries s); reflexivity.
Qed.

End Frame.

(** Reduce [frame R m] to one goal [R s (g s)] for each write [g] of [m];
    [tac] is run on these goals. *)
Ltac frame_rules tac :=
  repeat match goal with
    | |- frame _ (ret _) => apply frame_ret; apply _
    | |- frame _ (read _) => apply frame_read; apply _
    | |- frame _ throw => apply frame_throw; apply _
    | |- frame _ (defined _) => apply frame_defined; apply _
    | |- frame _ (findActiveLayoutId_from _ _) =>
        apply frame_findActiveLayoutId_from; apply _
    | |- frame _ (findDroppableLayoutId_from _ _) =>
        apply frame_findDroppableLayoutId_from; apply _
    | |- frame _ (bind _ _) => apply frame_bind; [apply _| |intros ?]
    | |- frame _ (write _) => apply frame_write; intros ?; cbn; tac
    | |- frame _ (match ?x with _ => _ end) => destruct x
    | |- frame _ _ =>
        progress cbv [when assign_state activate live_offset resting_offset
                      assign_offset assign_resting cancelAnimationX
                      cancelAnimationY call setActiveId clearActiveIdTimeout
                      animatePointWithSpring findActiveLayoutId
                      findDroppableLayoutId]
    end.

(** *** The resting offsets are written by Begin only *)

#[local] Instance same_resting_preorder : PreOrder (same_resting (num := num)).
Proof. split; unfold same_resting; [intros ?|intros ? ? ?]; congruence. Qed.

Lemma onUpdate_same_resting props ev : frame same_resting (onUpdate props ev).
Proof. unfold onUpdate. frame_rules ltac:(reflexivity). Qed.

Lemma onFinalize_same_resting props ev :
  frame same_resting (onFinalize props ev).
Proof. unfold onFinalize. frame_rules ltac:(reflexivity). Qed.

Lemma settle_same_resting id : frame same_resting (settle (num := num) id).
Proof. unfold settle. frame_rules ltac:(reflexivity). Qed.

Lemma timer_fires_same_resting h : frame same_resting (timer_fires (num := num) h).
Proof. unfold timer_fires. frame_rules ltac:(reflexivity). Qed.

(** *** Without a Begin, an empty timer queue stays quiet *)

#[local] Instance quiet_preorder id : PreOrder (quiet (num := num) id).
Proof.
  split; unfold quiet.
  - intros s. tauto.
  - intros s1 s2 s3 (Ht & Hd & Ha) (Ht' & Hd' & Ha'). auto.
Qed.

Lemma is_dragging_insert id id' st (m : gmap string DraggableState) :
  st <> dragging ->
  match <[id' := st]> m !! id with Some dragging => true | _ => false end
  = true ->
  match m !! id with Some dragging => true | _ => false end = true.
Proof.
  intros Hst. destruct (decide (id' = id)) as [->|Hne].
  - rewrite lookup_insert_eq. destruct st; congruence.
  - rewrite lookup_insert_ne by exact Hne. auto.
Qed.

Ltac quiet_write :=
  unfold quiet, is_dragging; cbn;
  repeat split; try tauto;
  first [ intros ->; reflexivity
        | apply is_dragging_insert; discriminate
        | idtac ].

Lemma onUpdate_quiet id props ev : frame (quiet id) (onUpdate props ev).
Proof. unfold onUpdate. frame_rules quiet_write. Qed.

Lemma onFinalize_quiet id props ev : frame (quiet id) (onFinalize props ev).
Proof. unfold onFinalize. frame_rules quiet_write. Qed.

Lemma settle_quiet id id' : frame (quiet id) (settle (num := num) id').
Proof. unfold settle. frame_rules quiet_write. Qed.

Lemma step_quiet props id ev s :
  is_begin ev = false ->
  timers s = [] ->
  quiet id s (store_of (step props ev s)).
Proof.
  intros Hev Ht.
  destruct ev as [e|e|e|h|id']; cbn [step is_begin] in *; try discriminate.
  - apply onUpdate_quiet.
  - apply onFinalize_quiet.
  - rewrite timer_fires_none by (rewrite Ht; reflexivity). reflexivity.
  - apply settle_quiet.
Qed.

Lemma exec_quiet props id evs s :
  Forall (fun ev => is_begin ev = false) evs ->
  timers s = [] ->
  quiet id s (exec props evs s) /\ dragging_entries props id evs s = 0.
Proof.
  intros Hevs. revert s.
  induction Hevs as [|ev evs Hev _ IH]; intros s Ht; cbn.
  - split; reflexivity.
  - pose proof (step_quiet props id ev s Hev Ht) as Hq.
    destruct (IH (store_of (step props ev s))) as [Hq' Hn];
      [apply Hq, Ht|].
    split; [etransitivity; eassumption|].
    rewrite Hn. destruct Hq as (_ & Hd & _).
    destruct (is_dragging s id) eqn:Hs; cbn; [reflexivity|].
    destruct (is_dragging (store_of (step props ev s)) id); [|reflexivity].
    specialize (Hd eq_refl). discriminate.
Qed.

(** ** The claims *)

(** C1 (amended).  On Begin, with the provider enabled and every draggable
    of the layouts registry known to the options and offsets registries,
    hit testing returns the first entry, in iteration order, that is not
    disabled and whose layout contains the pointer corrected by the content
    offset and by the entry's own live offset, and Begin makes it the
    active id (the pending id when it has an activation delay).  When no
    entry matches, nothing is selected and the store is left as it was but
    for [panGestureState], which records the gesture state of the event. *)
Theorem C1_begin_selects_first_hit props ev s :
  prop_disabled props = false ->
  draggables_registered s ->
  (forall entry,
      first_match (is_hit s (pointer ev)) (draggableLayouts s) entry ->
      findActiveLayoutId (pointer ev) s = Done (Some entry.1) s
      /\ forall rest st,
           draggableRestingOffsets s !! entry.1 = Some rest ->
           draggableStates s !! entry.1 = Some st ->
           exists o s',
             draggableOptions s !! entry.1 = Some o
             /\ onBegin props ev s = Done tt s'
             /\ if delayed o then draggablePendingId s' = Some entry.1
                else draggableActiveId s' = Some entry.1)
  /\ (no_match (is_hit s (pointer ev)) (draggableLayouts s) ->
      findActiveLayoutId (pointer ev) s = Done None s
      /\ onBegin props ev s = Done tt (set_panGestureState (b_state ev) s)).
Proof.
  intros Hen Hreg. split.
  - intros entry Hfirst.
    assert (findActiveLayoutId (pointer ev) s = Done (Some entry.1) s)
      as Hfind.
    { unfold findActiveLayoutId. unfold_worklet.
      apply findActiveLayoutId_from_first; assumption. }
    split; [exact Hfind|]. intros rest st Hrest Hst.
    pose proof Hfind as Hfound. unfold findActiveLayoutId in Hfound.
    unfold_worklet.
    apply findActiveLayoutId_from_found
      in Hfound as ([layout Hlay] & (o & Ho & _) & [off Hoff]).
    destruct (onBegin_selected props ev s entry.1 layout o off rest st)
      as (s' & Hrun & Heff); [assumption..|constructor; assumption|].
    exists o, s'. split; [exact Ho|]. split; [exact Hrun|].
    destruct (delayed o) eqn:Hd.
    + rewrite (be_pending _ _ _ _ _ _ _ _ _ Heff), Hd. reflexivity.
    + rewrite (be_active _ _ _ _ _ _ _ _ _ Heff), Hd. reflexivity.
  - intros Hnone.
    assert (findActiveLayoutId (pointer ev) s = Done None s) as Hfind.
    { unfold findActiveLayoutId. unfold_worklet.
      apply findActiveLayoutId_from_none; assumption. }
    split; [exact Hfind|]. apply onBegin_no_item; assumption.
Qed.

(** A run of Updates on an active item keeps the item active and the
    translation origin in place. *)
Lemma onUpdate_active_total props ev s id layout off :
  draggableActiveId s = Some id ->
  draggableOffsets s !! id = Some off ->
  lookup_layout id (draggableLayouts s) = Some layout ->
  droppables_registered s ->
  exists s',
    onUpdate props ev s = Done tt s'
    /\ draggableOffsets s' = <[id := panned s ev]> (draggableOffsets s)
    /\ draggableActiveId s' = Some id
    /\ draggableInitialOffset s' = draggableInitialOffset s
    /\ draggableLayouts s' = draggableLayouts s
    /\ droppableLayouts s' = droppableLayouts s
    /\ droppableOptions s' = droppableOptions s.
Proof.
  intros Ha Hoff Hlay Hreg.
  destruct (findDroppableLayoutId_total (applyOffset layout (panned s ev)) s Hreg)
    as [drop Hdrop].
  eexists. split; [eapply onUpdate_active; eassumption|].
  cbn. rewrite Ha. repeat split; reflexivity.
Qed.

Lemma run_app props evs evs' (s : Store num) :
  run props (evs ++ evs') s
  = bind (run props evs) (fun _ => run props evs') s.
Proof.
  revert s. induction evs as [|ev evs IH]; intros s; cbn; [reflexivity|].
  unfold bind in *. destruct (step props ev s); [apply IH|reflexivity].
Qed.

Lemma run_updates_active props evs s id layout off :
  draggableActiveId s = Some id ->
  draggableOffsets s !! id = Some off ->
  lookup_layout id (draggableLayouts s) = Some layout ->
  droppables_registered s ->
  exists s',
    run props (map Update evs) s = Done tt s'
    /\ is_Some (draggableOffsets s' !! id)
    /\ draggableActiveId s' = Some id
    /\ draggableInitialOffset s' = draggableInitialOffset s
    /\ draggableLayouts s' = draggableLayouts s
    /\ droppableLayouts s' = droppableLayouts s
    /\ droppableOptions s' = droppableOptions s.
Proof.
  revert s off. induction evs as [|ev evs IH]; intros s off Ha Hoff Hlay Hreg.
  - exists s. cbn. rewrite Hoff. repeat split; eauto.
  - destruct (onUpdate_active_total props ev s id layout off)
      as (s1 & Hrun & Hoff1 & Ha1 & Hi1 & Hl1 & Hd1 & Ho1); [assumption..|].
    destruct (IH s1 (panned s ev)) as (s' & Hrun' & ? & ? & ? & ? & ? & ?).
    + exact Ha1.
    + rewrite Hoff1. apply lookup_insert_eq.
    + rewrite Hl1. exact Hlay.
    + unfold droppables_registered in *. rewrite Hd1, Ho1. exact Hreg.
    + exists s'. cbn [map run step]. unfold bind. rewrite Hrun.
      repeat split; congruence || assumption.
Qed.

(** C2.  While an item is active, whatever Updates came before, after an
    Update the live offset of the item is the translation origin captured at
    Begin plus the translation of that Update, axis by axis. *)
Theorem C2_live_offset_is_initial_plus_translation
    props evs ev s id layout off :
  draggableActiveId s = Some id ->
  draggableOffsets s !! id = Some off ->
  lookup_layout id (draggableLayouts s) = Some layout ->
  droppables_registered s ->
  exists s',
    run props (map Update (evs ++ [ev])) s = Done tt s'
    /\ draggableOffsets s' !! id
       = Some {| pt_x := nadd (pt_x (draggableInitialOffset s)) (translationX ev);
                 pt_y := nadd (pt_y (draggableInitialOffset s)) (translationY ev) |}
    /\ draggableActiveId s' = Some id
    /\ draggableInitialOffset s' = draggableInitialOffset s.
Proof.
  intros Ha Hoff Hlay Hreg.
  destruct (run_updates_active props evs s id layout off)
    as (s1 & Hrun & [off1 Hoff1] & Ha1 & Hi1 & Hl1 & Hd1 & Ho1);
    [assumption..|].
  destruct (onUpdate_active_total props ev s1 id layout off1)
    as (s' & Hrun' & Hoff' & Ha' & Hi' & _); try assumption.
  { rewrite Hl1. exact Hlay. }
  { unfold droppables_registered in *. rewrite Hd1, Ho1. exact Hreg. }
  exists s'. rewrite map_app, run_app. unfold bind. rewrite Hrun. cbn.
  unfold bind. rewrite Hrun'. split; [reflexivity|].
  split; [|split; congruence].
  rewrite Hoff', lookup_insert_eq. unfold panned. rewrite Hi1. reflexivity.
Qed.

(** C3.  After an Update with an active item, [droppableActiveId] is the
    first droppable, in iteration order, that is not disabled and whose
    layout overlaps the layout of the active item translated by its live
    offset; it is none when no droppable is such. *)
Theorem C3_droppable_is_first_overlap props ev s id layout off :
  draggableActiveId s = Some id ->
  draggableOffsets s !! id = Some off ->
  lookup_layout id (draggableLayouts s) = Some layout ->
  droppables_registered s ->
  exists s' live,
    onUpdate props ev s = Done tt s'
    /\ draggableOffsets s' !! id = Some live
    /\ (forall entry,
          first_match (is_over s' (applyOffset layout live))
            (droppableLayouts s') entry ->
          droppableActiveId s' = Some entry.1)
    /\ (no_match (is_over s' (applyOffset layout live)) (droppableLayouts s') ->
        droppableActiveId s' = None).
Proof.
  intros Ha Hoff Hlay Hreg.
  assert (forall drop,
    findDroppableLayoutId (applyOffset layout (panned s ev)) s = Done drop s ->
    exists s',
      onUpdate props ev s = Done tt s'
      /\ draggableOffsets s' !! id = Some (panned s ev)
      /\ droppableActiveId s' = drop
      /\ droppableLayouts s' = droppableLayouts s
      /\ droppableOptions s' = droppableOptions s) as Hupd.
  { intros drop Hdrop. eexists. split; [eapply onUpdate_active; eassumption|].
    cbn. rewrite lookup_insert_eq. repeat split; reflexivity. }
  destruct (findDroppableLayoutId_total (applyOffset layout (panned s ev)) s Hreg)
    as [drop Hdrop].
  destruct (Hupd drop Hdrop) as (s' & Hrun & Hlive & Hd & Hl & Ho).
  exists s', (panned s ev). split; [exact Hrun|]. split; [exact Hlive|].
  assert (forall entry, is_over s' (applyOffset layout (panned s ev)) entry
                        = is_over s (applyOffset layout (panned s ev)) entry)
    as Hover by (intros entry; unfold is_over; rewrite Ho; reflexivity).
  unfold findDroppableLayoutId in Hdrop. unfold_worklet. rewrite Hl.
  split.
  - intros entry (before & after & Heq & Hbefore & Hhit).
    rewrite (findDroppableLayoutId_from_first _ _ _ entry) in Hdrop.
    + congruence.
    + exists before, after. split; [exact Heq|]. rewrite <- Hover.
      split; [|exact Hhit].
      eapply Forall_impl; [exact Hbefore|]. cbn. intros e He.
      rewrite <- Hover. exact He.
    + exact Hreg.
  - intros Hnone. rewrite findDroppableLayoutId_from_none in Hdrop.
    + congruence.
    + eapply Forall_impl; [exact Hnone|]. cbn. intros e He.
      rewrite <- Hover. exact He.
    + exact Hreg.
Qed.

(** A Begin that changes the resting offsets selected an item that was
    neither dragging nor acting. *)
Lemma onBegin_resting_changed props e s :
  draggableRestingOffsets (store_of (onBegin props e s))
  <> draggableRestingOffsets s ->
  exists id st,
    findActiveLayoutId (pointer e) s = Done (Some id) s
    /\ draggableStates s !! id = Some st
    /\ dragging_or_acting st = false.
Proof.
  unfold onBegin, findActiveLayoutId, pointer.
  destruct (prop_disabled props); [intros []; reflexivity|].
  unfold_worklet.
  rewrite (findActiveLayoutId_from_rebase _ _ _ s) by reflexivity.
  pose proof (findActiveLayoutId_from_rebase
                {| pt_x := b_x e; pt_y := b_y e |} (draggableLayouts s) s s
                eq_refl eq_refl eq_refl) as Hsame.
  destruct (findActiveLayoutId_from _ _ s) as [[id|] s1|s1]; cbn in *;
    try (intros []; reflexivity).
  injection Hsame as ->.
  destruct (lookup_layout id (draggableLayouts s)) as [layout|]; cbn;
    [|intros []; reflexivity].
  destruct (draggableStates s !! id) as [st|] eqn:Hst; cbn;
    [|intros []; reflexivity].
  destruct (draggableOffsets s !! id) as [off|] eqn:Hoff; cbn;
    [|intros []; reflexivity].
  destruct (dragging_or_acting st) eqn:Hda; cbn;
    [|intros _; exists id, st; auto].
  intros Hneq. exfalso. apply Hneq. clear Hneq.
  destruct (draggableOptions s !! id) as [o|]; cbn; [|reflexivity].
  destruct (ngtb (activationDelay o) nzero); lookups;
    destruct (prop_onBegin props); reflexivity.
Qed.

Lemma step_resting_changed props ev s :
  draggableRestingOffsets (store_of (step props ev s))
  <> draggableRestingOffsets s ->
  exists e id st,
    ev = Begin e
    /\ findActiveLayoutId (pointer e) s = Done (Some id) s
    /\ draggableStates s !! id = Some st
    /\ dragging_or_acting st = false.
Proof.
  destruct ev as [e|e|e|h|id]; cbn [step]; intros Hneq.
  - destruct (onBegin_resting_changed props e s Hneq) as (id & st & ?).
    exists e, id, st. auto.
  - destruct Hneq. apply onUpdate_same_resting.
  - destruct Hneq. apply onFinalize_same_resting.
  - destruct Hneq. apply timer_fires_same_resting.
  - destruct Hneq. apply settle_same_resting.
Qed.

Lemma dragging_or_acting_true st :
  dragging_or_acting st = true <-> st = dragging \/ st = acting.
Proof. destruct st; cbn; intuition discriminate. Qed.

Lemma dragging_or_acting_false st :
  dragging_or_acting st = false <-> st = resting \/ st = pending.
Proof. destruct st; cbn; intuition discriminate. Qed.

(** C4.  A Begin that selects an item whose state is dragging or acting
    cancels the spring of both axes of its live offset and leaves its
    resting offset as it is; when the state is resting or pending it
    copies the live offset into the resting offset.  No other event, and
    no other Begin, writes a resting offset. *)
Theorem C4_begin_resting_offset props ev s id layout o off rest st :
  prop_disabled props = false ->
  findActiveLayoutId (pointer ev) s = Done (Some id) s ->
  item_registered s id layout o off rest st ->
  exists s',
    onBegin props ev s = Done tt s'
    /\ (st = dragging \/ st = acting ->
        springX s' !! id = None
        /\ springY s' !! id = None
        /\ draggableRestingOffsets s' = draggableRestingOffsets s)
    /\ (st = resting \/ st = pending ->
        draggableRestingOffsets s' = <[id := off]> (draggableRestingOffsets s))
    /\ (forall ev' s0,
          draggableRestingOffsets (store_of (step props ev' s0))
          <> draggableRestingOffsets s0 ->
          exists e id' st',
            ev' = Begin e
            /\ findActiveLayoutId (pointer e) s0 = Done (Some id') s0
            /\ draggableStates s0 !! id' = Some st'
            /\ (st' = resting \/ st' = pending)).
Proof.
  intros Hen Hfind Hreg.
  destruct (onBegin_selected props ev s id layout o off rest st Hen Hfind Hreg)
    as (s' & Hrun & Heff).
  exists s'. split; [exact Hrun|]. split; [|split].
  - intros Hst. apply dragging_or_acting_true in Hst.
    rewrite (be_springX _ _ _ _ _ _ _ _ _ Heff),
      (be_springY _ _ _ _ _ _ _ _ _ Heff),
      (be_resting _ _ _ _ _ _ _ _ _ Heff), Hst.
    rewrite !lookup_delete_eq. auto.
  - intros Hst. apply dragging_or_acting_false in Hst.
    rewrite (be_resting _ _ _ _ _ _ _ _ _ Heff), Hst. reflexivity.
  - intros ev' s0 Hneq.
    destruct (step_resting_changed props ev' s0 Hneq)
      as (e & id' & st' & ? & ? & ? & Hst').
    apply dragging_or_acting_false in Hst'. exists e, id', st'. auto.
Qed.


(** C7.  The settle callback of an item leaves the store as it is when the
    last gesture state seen is neither END nor FAILED and the state of the
    item is not acting; otherwise it sets the state of the item to
    resting. *)
Theorem C7_settle id st (s : Store num) :
  draggableStates s !! id = Some st ->
  (panGestureState s <> END -> panGestureState s <> FAILED -> st <> acting ->
   settle id s = Done tt s)
  /\ (panGestureState s = END \/ panGestureState s = FAILED \/ st = acting ->
      settle id s
      = Done tt (set_draggableStates (<[id := resting]> (draggableStates s)) s)).
Proof.
  intros Hst. split.
  - apply settle_abandoned; assumption.
  - apply settle_resting; assumption.
Qed.

(** *** Delayed activation *)

Lemma exec_app props evs evs' (s : Store num) :
  exec props (evs ++ evs') s = exec props evs' (exec props evs s).
Proof.
  revert s. induction evs as [|ev evs IH]; intros s; cbn; [reflexivity|].
  apply IH.
Qed.

Lemma dragging_entries_app props id evs evs' s :
  dragging_entries props id (evs ++ evs') s
  = dragging_entries props id evs s
    + dragging_entries props id evs' (exec props evs s).
Proof.
  revert s. induction evs as [|ev evs IH]; intros s; cbn; [reflexivity|].
  rewrite IH. lia.
Qed.

Lemma awaiting_not_dragging s id h o :
  awaiting s id h o -> is_dragging s id = false.
Proof. intros Haw. unfold is_dragging. rewrite (aw_state _ _ _ _ Haw). reflexivity. Qed.

Lemma awaiting_cleared s id h o : awaiting s id h o -> cleared s = [].
Proof.
  intros Haw. unfold cleared, clearTimeout.
  rewrite (aw_timeout _ _ _ _ Haw), (aw_timers _ _ _ _ Haw). cbn.
  rewrite Pos.eqb_refl. reflexivity.
Qed.

(** A Begin that selects an item with an activation delay, while nothing is
    active and no timer is queued, leaves the item waiting. *)
Lemma onBegin_awaiting props ev s s' id layout o off st :
  begin_effect props ev id layout o off st s s' ->
  draggableOptions s !! id = Some o ->
  delayed o = true ->
  draggableActiveId s = None ->
  timers s = [] ->
  awaiting s' id (nextTimer s) o.
Proof.
  intros Heff Ho Hd Ha Ht. constructor.
  - rewrite (be_active _ _ _ _ _ _ _ _ _ Heff), Hd. exact Ha.
  - rewrite (be_pending _ _ _ _ _ _ _ _ _ Heff), Hd. reflexivity.
  - rewrite (be_timeout _ _ _ _ _ _ _ _ _ Heff), Hd. reflexivity.
  - rewrite (be_timers _ _ _ _ _ _ _ _ _ Heff), Hd, Ht. reflexivity.
  - rewrite (be_options _ _ _ _ _ _ _ _ _ Heff). exact Ho.
  - rewrite (be_states _ _ _ _ _ _ _ _ _ Heff), Hd. apply lookup_insert_eq.
Qed.

(** Updates that stay within the tolerance leave the item waiting. *)
Lemma updates_within_tolerance props ups s id h o :
  awaiting s id h o ->
  Forall (fun ev => exceeds ev o = false) ups ->
  awaiting (exec props (map Update ups) s) id h o
  /\ dragging_entries props id (map Update ups) s = 0.
Proof.
  intros Haw Hups. revert s Haw.
  induction Hups as [|ev ups Hev _ IH]; intros s Haw; cbn [map exec dragging_entries step];
    [split; [exact Haw|reflexivity]|].
  pose proof Haw as [Ha Hp Hto Hti Ho Hst].
  rewrite (onUpdate_pending props ev s id o Ha Hp Ho), Hev. cbn [store_of].
  assert (awaiting (set_panGestureState (u_state ev) s) id h o) as Haw'
    by (constructor; assumption).
  destruct (IH _ Haw') as [Hfinal Hn]. split; [exact Hfinal|].
  rewrite Hn, (awaiting_not_dragging _ _ _ _ Haw'), andb_false_r. reflexivity.
Qed.

(** Let an item wait for its delayed activation, with [timeout] holding
    the handle of its timer (the closure of the gesture has not been
    rebuilt since the Begin).  An Update that moves farther than its
    activation tolerance clears the timer and the pending id, and from then
    on, whatever events follow short of a new Begin, the item is never
    dragging and nothing is active.  If instead the Updates stay within the
    tolerance and the timer runs, the item is dragging, and along the
    trace, whatever follows short of a new Begin, it enters dragging
    exactly once. *)
Lemma pending_activation_same_closure props s id h o :
  awaiting s id h o ->
  (forall ev rest,
      exceeds ev o = true ->
      Forall (fun e => is_begin e = false) rest ->
      exists s',
        onUpdate props ev s = Done tt s'
        /\ draggablePendingId s' = None
        /\ timers s' = []
        /\ is_dragging (exec props rest s') id = false
        /\ draggableActiveId (exec props rest s') = None
        /\ dragging_entries props id (Update ev :: rest) s = 0)
  /\ (forall ups rest,
        Forall (fun ev => exceeds ev o = false) ups ->
        Forall (fun e => is_begin e = false) rest ->
        let fired := exec props (map Update ups ++ [TimerFires h]) s in
        is_dragging fired id = true
        /\ draggableActiveId fired = Some id
        /\ dragging_entries props id
             (map Update ups ++ TimerFires h :: rest) s = 1).
Proof.
  intros Haw. split.
  - intros ev rest Hev Hrest.
    pose proof Haw as [Ha Hp Hto Hti Ho Hst].
    eexists. split; [apply (onUpdate_pending props ev s id o Ha Hp Ho)|].
    rewrite Hev.
    set (s' := set_draggablePendingId None _).
    assert (timers s' = []) as Ht by (cbn; eapply awaiting_cleared, Haw).
    assert (is_dragging s' id = false) as Hnd
      by (unfold is_dragging; cbn; rewrite Hst; reflexivity).
    destruct (exec_quiet props id rest s' Hrest Ht) as [(_ & Hd & Hact) Hn].
    split; [reflexivity|]. split; [exact Ht|]. split; [|split].
    + destruct (is_dragging (exec props rest s') id); [|reflexivity].
      rewrite <- Hnd. symmetry. apply Hd. reflexivity.
    + apply Hact. exact Ha.
    + cbn [dragging_entries step].
      rewrite (onUpdate_pending props ev s id o Ha Hp Ho), Hev.
      cbn [store_of]. fold s'. rewrite Hn, Hnd, andb_false_r. reflexivity.
  - intros ups rest Hups Hrest.
    destruct (updates_within_tolerance props ups s id h o Haw Hups)
      as [Haw' Hn].
    cbv zeta. rewrite exec_app.
    set (s1 := exec props (map Update ups) s) in *.
    pose proof Haw' as [Ha Hp Hto Hti Ho Hst].
    assert (timer_fires h s1
            = Done tt (set_draggableStates
                         (<[id := dragging]> (draggableStates s1))
                         (set_draggableActiveId (Some id)
                            (set_timer (timeout s1)
                               (clearTimeout h (timers s1))
                               (nextTimer s1) s1)))) as Hfire.
    { apply (timer_fires_some h h id pending); [|exact Hst].
      rewrite Hti. cbn. rewrite Pos.eqb_refl. reflexivity. }
    cbn [exec step]. rewrite Hfire. cbn [store_of].
    set (s2 := set_draggableStates _ _) in *.
    assert (is_dragging s2 id = true) as Hd2
      by (unfold is_dragging; cbn; rewrite lookup_insert_eq; reflexivity).
    assert (timers s2 = []) as Ht2.
    { cbn. rewrite Hti. cbn. rewrite Pos.eqb_refl. reflexivity. }
    split; [exact Hd2|]. split; [reflexivity|].
    rewrite dragging_entries_app, Hn. fold s1.
    cbn [dragging_entries step]. rewrite Hfire. cbn [store_of]. fold s2.
    rewrite Hd2, (awaiting_not_dragging _ _ _ _ Haw').
    destruct (exec_quiet props id rest s2 Hrest Ht2) as [_ ->]. reflexivity.
Qed.

(** C9 (amended).  The registry reads of hit testing and of the offset
    updates are not guarded.  Hit testing that reaches, before any match, an
    entry of the layouts registry whose id the options registry does not
    know throws, for draggables and for droppables alike; so does an
    item-free Update whose pending id the options registry does not know,
    and an Update whose active id the offsets registry does not know.  With
    every id of the layouts registry known to the options and offsets
    registries, hit testing returns. *)
Theorem C9_registry_reads_unguarded
    props point activeLayout uev s id layout before after
    did dlayout dbefore dafter p pid a aid :
  draggableLayouts s = before ++ (id, layout) :: after ->
  no_match (is_hit s point) before ->
  Forall (fun e : UniqueIdentifier * Rectangle num =>
            is_Some (draggableOptions s !! e.1)
            /\ is_Some (draggableOffsets s !! e.1)) before ->
  draggableOptions s !! id = None ->
  droppableLayouts s = dbefore ++ (did, dlayout) :: dafter ->
  no_match (is_over s activeLayout) dbefore ->
  Forall (fun e : UniqueIdentifier * Rectangle num =>
            is_Some (droppableOptions s !! e.1)) dbefore ->
  droppableOptions s !! did = None ->
  draggableActiveId p = None ->
  draggablePendingId p = Some pid ->
  draggableOptions p !! pid = None ->
  draggableActiveId a = Some aid ->
  draggableOffsets a !! aid = None ->
  findActiveLayoutId point s = Thrown s
  /\ findDroppableLayoutId activeLayout s = Thrown s
  /\ onUpdate props uev p = Thrown (set_panGestureState (u_state uev) p)
  /\ onUpdate props uev a = Thrown (set_panGestureState (u_state uev) a)
  /\ (forall r, draggables_registered r ->
        exists found, findActiveLayoutId point r = Done found r).
Proof.
  intros Hlay Hmiss Hreg Hopt Hdlay Hdmiss Hdreg Hdopt Hpa Hpp Hpo Haa Hao.
  split; [|split; [|split; [|split]]].
  - unfold findActiveLayoutId. unfold_worklet. rewrite Hlay. clear Hlay.
    induction Hmiss as [|[k l] before Hk _ IH]; cbn.
    + unfold_worklet. rewrite Hopt. reflexivity.
    + apply Forall_cons in Hreg as [[[o Ho] [off Hoff]] Hreg].
      cbn in *. unfold is_hit in Hk. cbn in Hk. unfold_worklet.
      rewrite Ho, Hoff in *. destruct (disabled o); cbn in *; [apply IH, Hreg|].
      unfold corrected in Hk. rewrite Hk. apply IH, Hreg.
  - unfold findDroppableLayoutId. unfold_worklet. rewrite Hdlay. clear Hdlay.
    induction Hdmiss as [|[k l] dbefore Hk _ IH]; cbn.
    + unfold_worklet. rewrite Hdopt. reflexivity.
    + apply Forall_cons in Hdreg as [[o Ho] Hdreg].
      cbn in *. unfold is_over in Hk. cbn in Hk. unfold_worklet.
      rewrite Ho in *. cbn. rewrite Hk. apply IH, Hdreg.
  - apply (onUpdate_pending_unknown props uev p pid); assumption.
  - apply (onUpdate_active_unknown props uev a aid); assumption.
  - intros r. unfold draggables_registered, findActiveLayoutId.
    unfold_worklet. generalize (draggableLayouts r) as entries.
    induction entries as [|[k l] entries IH]; intros Hr; cbn.
    + eexists; reflexivity.
    + apply Forall_cons in Hr as [[[o Ho] [off Hoff]] Hr]. cbn in *.
      unfold_worklet. rewrite Ho, Hoff.
      destruct (disabled o); cbn; [apply IH, Hr|].
      destruct (includesPoint _ _); [eexists; reflexivity|apply IH, Hr].
Qed.

(** C10.  A Finalize that finds an item active clears the active id and
    the active droppable and leaves the pending id as it is; the timer of a
    delayed activation sets the active id and leaves the pending id as it
    is.  So once an item that waited has been activated by its timer and
    finalized, the pending id still names it, and a later Update, with no
    item active, compares its movement with the tolerance of that item. *)
Theorem C10_pending_id_outlives_the_drag
    props fev uev s id layout o off rest st
    p pid h playout po poff prest :
  draggableActiveId s = Some id ->
  item_registered s id layout o off rest st ->
  awaiting p pid h po ->
  item_registered p pid playout po poff prest pending ->
  (exists s',
      onFinalize props fev s = Done tt s'
      /\ draggableActiveId s' = None
      /\ droppableActiveId s' = None
      /\ draggablePendingId s' = draggablePendingId s)
  /\ (exists p',
        timer_fires h p = Done tt p'
        /\ draggableActiveId p' = Some pid
        /\ draggablePendingId p' = Some pid)
  /\ (let p' := exec props [TimerFires h; Finalize fev] p in
      draggableActiveId p' = None
      /\ draggablePendingId p' = Some pid
      /\ exists p'',
           onUpdate props uev p' = Done tt p''
           /\ draggablePendingId p''
              = if exceeds uev po then None else Some pid).
Proof.
  intros Ha Hreg Haw Hpreg.
  pose proof Haw as [Hpa Hpp Hto Hti Ho Hst].
  assert (timer_fires h p
          = Done tt (set_draggableStates
                       (<[pid := dragging]> (draggableStates p))
                       (set_draggableActiveId (Some pid)
                          (set_timer (timeout p)
                             (clearTimeout h (timers p))
                             (nextTimer p) p)))) as Hfire.
  { apply (timer_fires_some h h pid pending); [|exact Hst].
    rewrite Hti. cbn. rewrite Pos.eqb_refl. reflexivity. }
  split; [|split].
  - rewrite (onFinalize_active props fev s id layout o off rest st Ha Hreg).
    eexists. split; [reflexivity|]. cbn. auto.
  - rewrite Hfire. eexists. split; [reflexivity|]. cbn. auto.
  - cbv zeta. cbn [exec step]. rewrite Hfire. cbn [store_of].
    set (p1 := set_draggableStates _ _).
    assert (item_registered p1 pid playout po poff prest dragging) as Hreg1.
    { destruct Hpreg as [Hl Hop Hof Hr Hs]. constructor; cbn; try assumption.
      apply lookup_insert_eq. }
    rewrite (onFinalize_active props fev p1 pid playout po poff prest
               dragging eq_refl Hreg1). cbn [store_of].
    set (p2 := set_springs _ _ _).
    split; [reflexivity|]. split; [exact Hpp|].
    rewrite (onUpdate_pending props uev p2 pid po eq_refl Hpp Ho).
    eexists. split; [reflexivity|].
    destruct (exceeds uev po); [reflexivity|exact Hpp].
Qed.

(** ** Further properties *)

(** *** Hit testing, outcome by outcome *)

Lemma findActiveLayoutId_from_outcome point entries s :
  findActiveLayoutId_from point entries s
  = match List.find (stops s point) entries with
    | None => Done None s
    | Some entry =>
        if readable s entry then Done (Some entry.1) s else Thrown s
    end.
Proof.
  induction entries as [|[k l] entries IH]; [reflexivity|].
  cbn [findActiveLayoutId_from List.find].
  unfold stops, readable, is_hit.
  unfold_worklet.
  destruct (draggableOptions s !! k) as [o|] eqn:Ho; lookups;
    [|reflexivity].
  destruct (disabled o) eqn:Hd; cbn.
  - destruct (draggableOffsets s !! k); exact IH.
  - destruct (draggableOffsets s !! k) as [off|] eqn:Hoff; lookups;
      rewrite ?Hd; [|reflexivity].
    unfold corrected.
    destruct (includesPoint _ _); lookups; rewrite ?Hd; [reflexivity|exact IH].
Qed.

(** X1.  [findActiveLayoutId] goes through the entries of the layouts
    registry up to the first one that it cannot read (no options, or no
    live offset for an entry that is not disabled) or that is hit.  It
    throws in the first case, returns the id of the entry in the second,
    and returns null when there is no such entry; it never writes the
    store.  A disabled entry is passed over even when it has no live
    offset. *)
Theorem X1_findActiveLayoutId_outcome point (s : Store num) :
  findActiveLayoutId point s
  = match List.find (stops s point) (draggableLayouts s) with
    | None => Done None s
    | Some entry =>
        if readable s entry then Done (Some entry.1) s else Thrown s
    end.
Proof.
  unfold findActiveLayoutId. unfold_worklet.
  apply findActiveLayoutId_from_outcome.
Qed.

(** X2.  What hit testing returns is the id of an entry of the layouts
    registry that has options, is not disabled, has a live offset, and
    whose layout contains the pointer corrected by the content offset and
    by that live offset. *)
Theorem X2_findActiveLayoutId_sound point (s s' : Store num) id :
  findActiveLayoutId point s = Done (Some id) s' ->
  s' = s
  /\ exists layout o off,
       (id, layout) ∈ draggableLayouts s
       /\ draggableOptions s !! id = Some o
       /\ disabled o = false
       /\ draggableOffsets s !! id = Some off
       /\ includesPoint layout (corrected s point off) = true.
Proof.
  unfold findActiveLayoutId. unfold_worklet.
  rewrite findActiveLayoutId_from_outcome.
  destruct (List.find _ _) as [[k l]|] eqn:Hfind; [|discriminate].
  apply find_some in Hfind as [Hin Hstop].
  destruct (readable s (k, l)) eqn:Hread; [|discriminate].
  intros [= <- <-]. split; [reflexivity|].
  unfold stops in Hstop. rewrite Hread in Hstop. cbn in Hstop.
  unfold is_hit in Hstop. cbn in *.
  destruct (draggableOptions s !! k) as [o|]; [|discriminate].
  destruct (draggableOffsets s !! k) as [off|]; [|discriminate].
  apply andb_prop in Hstop as [Hen Hin'].
  exists l, o, off. split; [apply list_elem_of_In; exact Hin|].
  split; [reflexivity|]. split; [|split; [reflexivity|exact Hin']].
  destruct (disabled o); [discriminate|reflexivity].
Qed.

Lemma findDroppableLayoutId_from_outcome activeLayout entries s :
  findDroppableLayoutId_from activeLayout entries s
  = match List.find (drop_stops s activeLayout) entries with
    | None => Done None s
    | Some entry =>
        if drop_readable s entry then Done (Some entry.1) s else Thrown s
    end.
Proof.
  induction entries as [|[k l] entries IH]; [reflexivity|].
  cbn [findDroppableLayoutId_from List.find].
  unfold drop_stops, drop_readable, is_over.
  unfold_worklet.
  destruct (droppableOptions s !! k) as [o|] eqn:Ho; lookups;
    [|reflexivity].
  destruct (negb (drop_disabled o) && overlapsRectangle _ _); lookups;
    [reflexivity|exact IH].
Qed.

(** X3.  [findDroppableLayoutId] goes through the droppable layouts up to
    the first entry that has no options or that is not disabled and
    overlaps the active layout; it throws in the first case, returns the id
    in the second, returns null when there is no such entry, and never
    writes the store.  What it returns is a registered droppable that is
    not disabled and overlaps. *)
Theorem X3_findDroppableLayoutId_outcome activeLayout (s : Store num) :
  findDroppableLayoutId activeLayout s
  = match List.find (drop_stops s activeLayout) (droppableLayouts s) with
    | None => Done None s
    | Some entry =>
        if drop_readable s entry then Done (Some entry.1) s else Thrown s
    end
  /\ forall s' id,
       findDroppableLayoutId activeLayout s = Done (Some id) s' ->
       s' = s
       /\ exists layout o,
            (id, layout) ∈ droppableLayouts s
            /\ droppableOptions s !! id = Some o
            /\ drop_disabled o = false
            /\ overlapsRectangle activeLayout layout = true.
Proof.
  assert (findDroppableLayoutId activeLayout s
          = match List.find (drop_stops s activeLayout) (droppableLayouts s)
            with
            | None => Done None s
            | Some entry =>
                if drop_readable s entry then Done (Some entry.1) s
                else Thrown s
            end) as Hout.
  { unfold findDroppableLayoutId. unfold_worklet.
    apply findDroppableLayoutId_from_outcome. }
  split; [exact Hout|]. intros s' id. rewrite Hout.
  destruct (List.find _ _) as [[k l]|] eqn:Hfind; [|discriminate].
  apply find_some in Hfind as [Hin Hstop].
  destruct (drop_readable s (k, l)) eqn:Hread; [|discriminate].
  intros [= <- <-]. split; [reflexivity|].
  unfold drop_stops in Hstop. rewrite Hread in Hstop. cbn in Hstop.
  unfold is_over in Hstop. cbn in *.
  destruct (droppableOptions s !! k) as [o|]; [|discriminate].
  apply andb_prop in Hstop as [Hen Hov].
  exists l, o. split; [apply list_elem_of_In; exact Hin|].
  split; [reflexivity|]. split; [|exact Hov].
  destruct (drop_disabled o); [discriminate|reflexivity].
Qed.

(** *** The registries of the items are only read *)

#[local] Instance read_only_preorder : PreOrder (read_only (num := num)).
Proof.
  split; unfold read_only.
  - intros s. auto.
  - intros s1 s2 s3 (? & ? & ? & ? & ?) (? & ? & ? & ? & ?).
    repeat split; congruence.
Qed.

Ltac read_only_write := unfold read_only; cbn; auto.

Lemma step_read_only props ev : frame read_only (step props ev).
Proof.
  destruct ev as [e|e|e|h|id]; cbn [step].
  - unfold onBegin. frame_rules read_only_write.
  - unfold onUpdate. frame_rules read_only_write.
  - unfold onFinalize. frame_rules read_only_write.
  - unfold timer_fires. frame_rules read_only_write.
  - unfold settle. frame_rules read_only_write.
Qed.

(** X4.  No handler of the gesture, no timer of a delayed activation and no
    settle callback ever writes the layouts or the options of draggables or
    droppables, or the content offset: whatever the events and whatever
    the store, also when a handler throws. *)
Theorem X4_registries_only_read props evs (s : Store num) :
  read_only s (exec props evs s).
Proof.
  revert s. induction evs as [|ev evs IH]; intros s; cbn [exec].
  - reflexivity.
  - etransitivity; [apply step_read_only|apply IH].
Qed.

(** X5.  An Update writes no live offset but that of the active item:
    the live offset of any other item is after the Update what it was
    before, also when the handler throws. *)
Theorem X5_update_moves_only_the_active_item props ev (s : Store num) k :
  draggableActiveId s <> Some k ->
  draggableOffsets (store_of (onUpdate props ev s)) !! k
  = draggableOffsets s !! k.
Proof.
  intros Hk. unfold onUpdate, findDroppableLayoutId. unfold_worklet.
  destruct (draggableActiveId s) as [id|].
  - assert (id <> k) as Hne by congruence.
    destruct (draggableOffsets s !! id) as [off|] eqn:Hoff; lookups;
      [|reflexivity].
    destruct (lookup_layout id (draggableLayouts s)) as [layout|]; cbn;
      [|rewrite !lookup_insert_ne by exact Hne; reflexivity].
    lookups.
    rewrite (findDroppableLayoutId_from_rebase _ _ _ s) by reflexivity.
    destruct (findDroppableLayoutId_from _ _ s) as [drop s1|s1]; cbn;
      [destruct (prop_onUpdate props); cbn|];
      rewrite !lookup_insert_ne by exact Hne; reflexivity.
  - destruct (draggablePendingId s) as [pid|]; cbn; [|reflexivity].
    destruct (draggableOptions s !! pid) as [o|]; cbn; [|reflexivity].
    destruct (ngtb _ _); cbn; [|reflexivity].
    destruct (timeout s); reflexivity.
Qed.

(** *** Whole gestures *)











Lemma spring_frame_cursor id p (s : Store num) :
  let s' := spring_frame id p s in
  timers s' = timers s
  /\ timeout s' = timeout s
  /\ draggablePendingId s' = draggablePendingId s
  /\ draggableActiveId s' = draggableActiveId s
  /\ droppableActiveId s' = droppableActiveId s
  /\ draggableStates s' = draggableStates s
  /\ draggableRestingOffsets s' = draggableRestingOffsets s
  /\ panGestureState s' = panGestureState s.
Proof.
  cbv zeta. unfold spring_frame.
  destruct (draggableOffsets s !! id); cbn; auto 10.
Qed.


(** X7.  With the provider disabled, and from a store with nothing active
    and no timer queued, no trace of events makes an item active, queues a
    timer or takes an item into dragging: a Begin does nothing at all, and
    the other events have nothing to work on. *)
Theorem X7_disabled_provider_starts_no_drag props evs id (s : Store num) :
  prop_disabled props = true ->
  idle s ->
  idle (exec props evs s) /\ dragging_entries props id evs s = 0.
Proof.
  intros Hd. revert s. induction evs as [|ev evs IH]; intros s Hidle.
  - split; [exact Hidle|reflexivity].
  - cbn [exec dragging_entries].
    assert (idle (store_of (step props ev s))
            /\ (is_dragging (store_of (step props ev s)) id = true ->
                is_dragging s id = true)) as [Hidle' Hdrag].
    { destruct (is_begin ev) eqn:Hev.
      - destruct ev; try discriminate. cbn [step].
        rewrite (onBegin_disabled props e s Hd). auto.
      - destruct Hidle as [Ht Ha].
        destruct (step_quiet props id ev s Hev Ht) as (Ht' & Hdr & Ha').
        repeat split; auto. }
    destruct (IH _ Hidle') as [Hfinal Hn]. split; [exact Hfinal|].
    rewrite Hn. destruct (is_dragging s id) eqn:Hs; cbn; [reflexivity|].
    destruct (is_dragging (store_of (step props ev s)) id); [|reflexivity].
    specialize (Hdrag eq_refl). discriminate.
Qed.

(** *** A long press that is given up *)



(** *** A whole drag *)

Lemma onUpdate_dragging props ev (s : Store num) id layout o init home cur :
  dragging_item s id layout o init home ->
  draggableOffsets s !! id = Some cur ->
  exists s',
    onUpdate props ev s = Done tt s'
    /\ dragging_item s' id layout o init home
    /\ draggableOffsets s' !! id
       = Some {| pt_x := nadd (pt_x init) (translationX ev);
                 pt_y := nadd (pt_y init) (translationY ev) |}.
Proof.
  intros [Ha Hl Ho Hr Hs Hi Hd] Hcur.
  destruct (findDroppableLayoutId_total (applyOffset layout (panned s ev)) s Hd)
    as [drop Hdrop].
  rewrite (onUpdate_active props ev s id layout cur drop Ha Hcur Hl Hdrop).
  eexists. split; [reflexivity|]. split.
  - constructor; cbn; assumption.
  - cbn. rewrite lookup_insert_eq. unfold panned. rewrite Hi. reflexivity.
Qed.

Lemma exec_updates_dragging props ups (s : Store num) id layout o init home cur :
  dragging_item s id layout o init home ->
  draggableOffsets s !! id = Some cur ->
  let s' := exec props (map Update ups) s in
  dragging_item s' id layout o init home
  /\ draggableOffsets s' !! id
     = Some match last ups with
            | Some ev =>
                {| pt_x := nadd (pt_x init) (translationX ev);
                   pt_y := nadd (pt_y init) (translationY ev) |}
            | None => cur
            end.
Proof.
  cbv zeta. revert s cur. induction ups as [|ev ups IH]; intros s cur Hd Hcur.
  - split; assumption.
  - destruct (onUpdate_dragging props ev s id layout o init home cur Hd Hcur)
      as (s1 & Hrun & Hd1 & Hcur1).
    cbn [map exec step]. rewrite Hrun. cbn [store_of].
    destruct (IH s1 _ Hd1 Hcur1) as [Hd' Hoff']. split; [exact Hd'|].
    rewrite Hoff'. destruct ups as [|ev' ups]; [reflexivity|].
    change (last (ev :: ev' :: ups)) with (last (ev' :: ups)).
    destruct (last (ev' :: ups)) eqn:Hlast; [reflexivity|].
    apply last_None in Hlast. discriminate.
Qed.

Lemma host_exec_app hevs hevs' (st : Props * Store num) :
  host_exec (hevs ++ hevs') st = host_exec hevs' (host_exec hevs st).
Proof.
  revert st. induction hevs as [|hev hevs IH]; intros st; cbn;
    [reflexivity|apply IH].
Qed.

Lemma host_exec_spring_frames props frames (s : Store num) :
  let st := host_exec (map (fun f => SpringFrame f.1 f.2) frames) (props, s) in
  st.1 = props
  /\ draggableActiveId st.2 = draggableActiveId s
  /\ droppableActiveId st.2 = droppableActiveId s
  /\ draggableStates st.2 = draggableStates s
  /\ draggableRestingOffsets st.2 = draggableRestingOffsets s
  /\ panGestureState st.2 = panGestureState s.
Proof.
  cbv zeta. revert s. induction frames as [|[k p] frames IH]; intros s.
  - cbn. auto 10.
  - cbn [map host_exec host_step fst snd].
    destruct (spring_frame_cursor k p s)
      as (_ & _ & _ & Ha & Hd & Hs & Hr & Hg).
    destruct (IH (spring_frame k p s)) as (? & ? & ? & ? & ? & ?).
    repeat split; congruence.
Qed.

(** X9.  A whole drag of an item that activates at once: Begin on the
    item, any Updates, Finalize.  Right after Finalize the item is acting,
    nothing is active and no droppable is active; its live offset is the
    offset it had at Begin plus the translation of the last Update; its
    resting offset is the offset it had at Begin (its former resting offset
    if it was grabbed while dragging or acting), and the springs started by
    Finalize go to that resting offset with the velocities of the Finalize
    event.  Whatever the springs then write to live offsets, once the
    settle callback of the item has run the item is resting, nothing is
    active, and its resting offset is the same. *)
Theorem X9_whole_drag
    props b ups f frames (s : Store num) id layout o off rest st :
  prop_disabled props = false ->
  findActiveLayoutId (pointer b) s = Done (Some id) s ->
  item_registered s id layout o off rest st ->
  delayed o = false ->
  droppables_registered s ->
  let home := if dragging_or_acting st then rest else off in
  let s1 := exec props (Begin b :: map Update ups ++ [Finalize f]) s in
  let s2 :=
    (host_exec (map (fun fr => SpringFrame fr.1 fr.2) frames
                ++ [Gesture (Settle id)]) (props, s1)).2 in
  (draggableStates s1 !! id = Some acting
   /\ draggableActiveId s1 = None
   /\ droppableActiveId s1 = None
   /\ draggableOffsets s1 !! id = Some (panned_to off ups)
   /\ draggableRestingOffsets s1 !! id = Some home
   /\ springX s1 !! id
      = Some {| toValue := pt_x home; velocity := velocityX f |}
   /\ springY s1 !! id
      = Some {| toValue := pt_y home; velocity := velocityY f |})
  /\ (draggableStates s2 !! id = Some resting
      /\ draggableActiveId s2 = None
      /\ droppableActiveId s2 = None
      /\ draggableRestingOffsets s2 !! id = Some home).
Proof.
  intros Hen Hfind Hreg Hnow Hdrop. cbv zeta.
  destruct (onBegin_selected props b s id layout o off rest st Hen Hfind Hreg)
    as (s1 & Hrun & Heff).
  pose proof (step_read_only props (Begin b) s) as (_ & Hdl & _ & Hdo & _).
  cbn [step] in Hdl, Hdo. rewrite Hrun in Hdl, Hdo. cbn [store_of] in Hdl, Hdo.
  destruct Hreg as [Hl Ho Hoff Hrest Hst].
  set (home := if dragging_or_acting st then rest else off).
  assert (dragging_item s1 id layout o off home) as Hd1.
  { constructor.
    - rewrite (be_active _ _ _ _ _ _ _ _ _ Heff), Hnow. reflexivity.
    - rewrite (be_layouts _ _ _ _ _ _ _ _ _ Heff). exact Hl.
    - rewrite (be_options _ _ _ _ _ _ _ _ _ Heff). exact Ho.
    - rewrite (be_resting _ _ _ _ _ _ _ _ _ Heff). unfold home.
      destruct (dragging_or_acting st); [exact Hrest|apply lookup_insert_eq].
    - rewrite (be_states _ _ _ _ _ _ _ _ _ Heff), Hnow. apply lookup_insert_eq.
    - apply (be_initial _ _ _ _ _ _ _ _ _ Heff).
    - unfold droppables_registered. rewrite Hdl, Hdo. exact Hdrop. }
  assert (draggableOffsets s1 !! id = Some off) as Hoff1
    by (rewrite (be_offsets _ _ _ _ _ _ _ _ _ Heff); exact Hoff).
  cbn [exec step]. rewrite Hrun. cbn [store_of]. rewrite exec_app.
  destruct (exec_updates_dragging props ups s1 id layout o off home off
              Hd1 Hoff1) as [Hd2 Hoff2].
  set (s2 := exec props (map Update ups) s1) in *.
  fold (panned_to off ups) in Hoff2.
  destruct Hd2 as [Ha2 Hl2 Ho2 Hr2 Hs2 Hi2 Hdr2].
  assert (item_registered s2 id layout o (panned_to off ups) home dragging)
    as Hreg2 by (constructor; assumption).
  cbn [exec step].
  rewrite (onFinalize_active props f s2 id layout o _ _ _ Ha2 Hreg2).
  cbn [store_of].
  set (s3 := set_springs _ _ _).
  assert (draggableStates s3 !! id = Some acting) as Hs3
    by (cbn; apply lookup_insert_eq).
  assert (draggableRestingOffsets s3 !! id = Some home) as Hr3 by exact Hr2.
  split.
  - split; [exact Hs3|]. split; [reflexivity|]. split; [reflexivity|].
    split; [exact Hoff2|]. split; [exact Hr3|].
    cbn. rewrite !lookup_insert_eq. split; reflexivity.
  - rewrite host_exec_app.
    destruct (host_exec_spring_frames props frames s3)
      as (Hp & Ha & Hd & Hs & Hr & Hg).
    destruct (host_exec _ (props, s3)) as [props4 s4].
    cbn [fst snd] in *. subst props4.
    cbn [host_exec host_step fst snd step].
    rewrite (settle_resting id acting s4);
      [|rewrite Hs; exact Hs3|right; right; reflexivity].
    cbn. rewrite lookup_insert_eq, Ha, Hd, Hr. auto.
Qed.


(** X11.  A Begin on an item with an activation delay calls [onBegin] at
    once, while the item is only pending, and leaves the active layout as
    it was; when the timer then activates the item, the item is active and
    dragging but the active layout is still the one from before the
    Begin, and no callback is called. *)
Theorem X11_delayed_begin props b (s : Store num) id layout o off rest st :
  prop_disabled props = false ->
  findActiveLayoutId (pointer b) s = Done (Some id) s ->
  item_registered s id layout o off rest st ->
  delayed o = true ->
  idle s ->
  let s1 := exec props [Begin b] s in
  let s2 := exec props [Begin b; TimerFires (nextTimer s)] s in
  awaiting s1 id (nextTimer s) o
  /\ calls s1
     = calls s ++ (if prop_onBegin props then [CallOnBegin b id layout] else [])
  /\ draggableActiveLayout s1 = draggableActiveLayout s
  /\ draggableActiveId s2 = Some id
  /\ draggableStates s2 !! id = Some dragging
  /\ draggableActiveLayout s2 = draggableActiveLayout s
  /\ calls s2 = calls s1.
Proof.
  intros Hen Hfind Hreg Hlater [Ht Ha]. cbv zeta.
  destruct (onBegin_selected props b s id layout o off rest st Hen Hfind Hreg)
    as (s1 & Hrun & Heff).
  cbn [exec step]. rewrite Hrun. cbn [store_of].
  assert (awaiting s1 id (nextTimer s) o) as Haw.
  { eapply onBegin_awaiting; try eassumption. apply Hreg. }
  pose proof Haw as [Ha1 Hp1 Hto1 Hti1 Ho1 Hst1].
  rewrite (timer_fires_some (nextTimer s) (nextTimer s) id pending s1);
    [|rewrite Hti1; cbn; rewrite Pos.eqb_refl; reflexivity|exact Hst1].
  split; [exact Haw|].
  cbn. rewrite lookup_insert_eq.
  rewrite (be_calls _ _ _ _ _ _ _ _ _ Heff),
    (be_activeLayout _ _ _ _ _ _ _ _ _ Heff), Hlater.
  repeat split; reflexivity.
Qed.

(** *** Cancelling the timer *)

(** X12.  [clearActiveIdTimeout] writes nothing but the timers of the
    host, a second call changes nothing, and a call when [timeout] holds no
    handle, or the handle of a timer that has run already, changes
    nothing. *)
Theorem X12_clearActiveIdTimeout_idempotent (s : Store num) :
  let s1 := store_of (clearActiveIdTimeout s) in
  clearActiveIdTimeout s1 = Done tt s1
  /\ set_timer (timeout s) (timers s1) (nextTimer s) s = s1
  /\ ((forall h, timeout s = Some h -> Forall (fun t => t.1 <> h) (timers s)) ->
      s1 = s).
Proof.
  cbv zeta. unfold clearActiveIdTimeout. unfold_worklet.
  destruct (timeout s) as [h|] eqn:Hto; cbn; rewrite ?Hto; cbn.
  - unfold clearTimeout. split; [|split].
    + f_equal. f_equal. rewrite list_filter_filter.
      apply list_filter_iff. intros t. tauto.
    + reflexivity.
    + intros Hgone. specialize (Hgone h eq_refl).
      assert (filter (fun t : positive * UniqueIdentifier =>
                        negb (Pos.eqb t.1 h)) (timers s) = timers s) as ->.
      { induction Hgone as [|t ts Ht _ IH]; [reflexivity|].
        rewrite filter_cons_True; [rewrite IH; reflexivity|].
        apply Is_true_true, negb_true_iff, Pos.eqb_neq, Ht. }
      rewrite <- Hto. destruct s; reflexivity.
  - split; [reflexivity|]. split; [|reflexivity].
    rewrite <- Hto. destruct s; reflexivity.
Qed.


End Proofs.

Import Scenario.

Lemma at_rest_draggables_registered : draggables_registered at_rest.
Proof. repeat constructor; eexists; reflexivity. Qed.

Lemma C1_witness :
  prop_disabled all_callbacks = false
  /\ draggables_registered at_rest
  /\ findActiveLayoutId (pointer (press 50 50)) at_rest
     = Done (Some "A"%string) at_rest
  /\ (exists s',
        onBegin all_callbacks (press 50 50) at_rest = Done tt s'
        /\ draggableActiveId s' = Some "A"%string)
  /\ onBegin all_callbacks (press 500 500) at_rest
     = Done tt (set_panGestureState BEGAN at_rest).
Proof.
  split; [reflexivity|]. split; [exact at_rest_draggables_registered|].
  destruct (C1_begin_selects_first_hit all_callbacks (press 50 50) at_rest
              eq_refl at_rest_draggables_registered) as [Hhit _].
  destruct (Hhit ("A"%string, rectA)) as [Hfind Hbegin].
  { exists [], [("L"%string, rectL)].
    split; [reflexivity|]. split; [constructor|]. vm_compute. reflexivity. }
  split; [exact Hfind|]. split.
  - destruct (Hbegin origin resting eq_refl eq_refl) as (o & s' & Ho & Hrun & Hsel).
    exists s'. split; [exact Hrun|].
    vm_compute in Ho. injection Ho as <-. exact Hsel.
  - apply (C1_begin_selects_first_hit all_callbacks (press 500 500) at_rest
             eq_refl at_rest_draggables_registered).
    repeat constructor.
Defined.

(** C1 as stated fails where it says that no state is changed: a Begin
    that hits no item still records the gesture state. *)
Lemma C1_counterexample :
  no_match (is_hit at_rest (pointer (press 500 500))) (draggableLayouts at_rest)
  /\ store_of (onBegin all_callbacks (press 500 500) at_rest) <> at_rest.
Proof.
  split; [repeat constructor|].
  intros Heq. apply (f_equal panGestureState) in Heq. vm_compute in Heq.
  discriminate.
Qed.

Lemma at_rest_droppables_registered : droppables_registered at_rest.
Proof. repeat constructor; eexists; reflexivity. Qed.

Lemma dragging_A_droppables_registered : droppables_registered dragging_A.
Proof. repeat constructor; eexists; reflexivity. Qed.

Lemma C2_witness :
  draggableActiveId dragging_A = Some "A"%string
  /\ draggableOffsets dragging_A !! "A"%string = Some origin
  /\ lookup_layout "A"%string (draggableLayouts dragging_A) = Some rectA
  /\ droppables_registered dragging_A
  /\ exists s',
       run all_callbacks (map Update ([pan 3 4; pan 60 (-7)] ++ [pan 100 0]))
         dragging_A = Done tt s'
       /\ draggableOffsets s' !! "A"%string
          = Some {| pt_x := 100%Z; pt_y := 0%Z |}.
Proof.
  split; [reflexivity|]. split; [reflexivity|]. split; [reflexivity|].
  split; [exact dragging_A_droppables_registered|].
  destruct (C2_live_offset_is_initial_plus_translation all_callbacks
              [pan 3 4; pan 60 (-7)] (pan 100 0) dragging_A "A"%string
              rectA origin eq_refl eq_refl eq_refl
              dragging_A_droppables_registered)
    as (s' & Hrun & Hoff & _).
  exists s'. split; [exact Hrun|exact Hoff].
Defined.

Lemma C3_witness :
  draggableActiveId dragging_A = Some "A"%string
  /\ draggableOffsets dragging_A !! "A"%string = Some origin
  /\ lookup_layout "A"%string (draggableLayouts dragging_A) = Some rectA
  /\ droppables_registered dragging_A
  /\ exists s',
       onUpdate all_callbacks (pan 100 0) dragging_A = Done tt s'
       /\ droppableActiveId s' = Some "B"%string.
Proof.
  split; [reflexivity|]. split; [reflexivity|]. split; [reflexivity|].
  split; [exact dragging_A_droppables_registered|].
  destruct (C3_droppable_is_first_overlap all_callbacks (pan 100 0)
              dragging_A "A"%string rectA origin eq_refl eq_refl eq_refl
              dragging_A_droppables_registered)
    as (s' & live & Hrun & Hlive & Hfirst & _).
  exists s'. split; [exact Hrun|].
  assert (s' = over_B) as Hs'.
  { unfold over_B. cbn [exec step store_of]. rewrite Hrun. reflexivity. }
  apply (Hfirst ("B"%string, rectB)).
  exists [], []. rewrite Hs' in *.
  split; [reflexivity|]. split; [constructor|].
  vm_compute in Hlive. injection Hlive as <-. vm_compute. reflexivity.
Defined.

Lemma C4_witness :
  prop_disabled all_callbacks = false
  /\ findActiveLayoutId (pointer (press 55 50)) released_A
     = Done (Some "A"%string) released_A
  /\ item_registered released_A "A"%string rectA optionsA
       {| pt_x := 10%Z; pt_y := 0%Z |} origin acting
  /\ exists s',
       onBegin all_callbacks (press 55 50) released_A = Done tt s'
       /\ springX s' !! "A"%string = None
       /\ springY s' !! "A"%string = None
       /\ draggableRestingOffsets s' = draggableRestingOffsets released_A.
Proof.
  assert (item_registered released_A "A"%string rectA optionsA
            {| pt_x := 10%Z; pt_y := 0%Z |} origin acting) as Hreg
    by (constructor; reflexivity).
  assert (findActiveLayoutId (pointer (press 55 50)) released_A
          = Done (Some "A"%string) released_A) as Hfind
    by (vm_compute; reflexivity).
  split; [reflexivity|]. split; [exact Hfind|]. split; [exact Hreg|].
  destruct (C4_begin_resting_offset all_callbacks (press 55 50) released_A
              "A"%string rectA optionsA {| pt_x := 10%Z; pt_y := 0%Z |}
              origin acting eq_refl Hfind Hreg)
    as (s' & Hrun & Hmoving & _).
  exists s'. split; [exact Hrun|]. apply Hmoving. right. reflexivity.
Defined.


Lemma C7_witness :
  draggableStates released_A !! "A"%string = Some acting
  /\ settle "A"%string released_A
     = Done tt (set_draggableStates
                  (<["A"%string := resting]> (draggableStates released_A))
                  released_A).
Proof.
  split; [reflexivity|].
  apply (C7_settle "A"%string acting released_A eq_refl).
  left. reflexivity.
Defined.

(** C8 (the code departs from the claim).  [A] was dragged 10 to the right
    and released; it is pressed again while its live offset is still
    (10, 0).  Begin activates it at once and stores as active layout its
    layout translated by (10, 0), but the [onBegin] callback receives the
    layout as registered, not translated. *)
Theorem C8_onBegin_receives_untranslated_layout :
  let s' := store_of (onBegin all_callbacks (press 55 50) released_A) in
  draggableOffsets released_A !! "A"%string = Some {| pt_x := 10%Z; pt_y := 0%Z |}
  /\ draggableActiveId s' = Some "A"%string
  /\ draggableActiveLayout s'
     = Some (applyOffset rectA {| pt_x := 10%Z; pt_y := 0%Z |})
  /\ last (calls s') = Some (CallOnBegin (press 55 50) "A"%string rectA)
  /\ applyOffset rectA {| pt_x := 10%Z; pt_y := 0%Z |} <> rectA.
Proof.
  cbv zeta. split; [reflexivity|]. split; [reflexivity|].
  split; [reflexivity|]. split; [reflexivity|]. discriminate.
Qed.

Lemma pressed_L_awaiting : awaiting pressed_L "L"%string 1%positive optionsL.
Proof. constructor; reflexivity. Qed.

Lemma pending_activation_same_closure_witness :
  awaiting pressed_L "L"%string 1%positive optionsL
  /\ (exists s',
        onUpdate all_callbacks (pan 6 8) pressed_L = Done tt s'
        /\ draggablePendingId s' = None
        /\ is_dragging
             (exec all_callbacks
                [TimerFires 1%positive; Update (pan 0 0); Finalize release] s')
             "L"%string = false)
  /\ dragging_entries all_callbacks "L"%string
       (map Update [pan 3 4; pan 0 0]
        ++ TimerFires 1%positive
           :: [Update (pan 60 0); TimerFires 1%positive; Finalize release;
               Settle "L"%string])
       pressed_L = 1.
Proof.
  split; [exact pressed_L_awaiting|].
  destruct (pending_activation_same_closure all_callbacks pressed_L "L"%string
              1%positive optionsL pressed_L_awaiting) as [Hcancel Hfire].
  split.
  - destruct (Hcancel (pan 6 8)
                [TimerFires 1%positive; Update (pan 0 0); Finalize release]
                eq_refl)
      as (s' & Hrun & Hpend & _ & Hnever & _); [repeat constructor|].
    exists s'. split; [exact Hrun|]. split; [exact Hpend|exact Hnever].
  - apply (Hfire [pan 3 4; pan 0 0]
             [Update (pan 60 0); TimerFires 1%positive; Finalize release;
              Settle "L"%string]); repeat constructor.
Defined.

Lemma C9_witness :
  findActiveLayoutId (pointer (press 50 50)) with_ghost = Thrown with_ghost
  /\ findDroppableLayoutId rectA with_ghost = Thrown with_ghost
  /\ onUpdate all_callbacks (pan 1 1) pending_ghost
     = Thrown (set_panGestureState ACTIVE pending_ghost)
  /\ onUpdate all_callbacks (pan 1 1) active_ghost
     = Thrown (set_panGestureState ACTIVE active_ghost)
  /\ exists found,
       findActiveLayoutId (pointer (press 50 50)) at_rest = Done found at_rest.
Proof.
  destruct (C9_registry_reads_unguarded all_callbacks
              (pointer (press 50 50)) rectA (pan 1 1)
              with_ghost "ghost"%string rectB [] (draggableLayouts at_rest)
              "phantom"%string rectA [] (droppableLayouts at_rest)
              pending_ghost "ghost"%string active_ghost "ghost"%string)
    as (Hhit & Hdrop & Hpend & Hact & Hok);
    [solve [reflexivity | constructor] ..|].
  split; [exact Hhit|]. split; [exact Hdrop|]. split; [exact Hpend|].
  split; [exact Hact|]. apply Hok. exact at_rest_draggables_registered.
Defined.

(** C9 as stated fails: the layouts registry of [with_ghost] starts with an
    id that the options registry does not know, and hit testing throws
    instead of passing over the entry as it would were the item not there;
    an Update whose pending id the options registry does not know throws as
    well. *)
Lemma C9_counterexample :
  draggableOptions with_ghost !! "ghost"%string = None
  /\ findActiveLayoutId (pointer (press 50 50)) at_rest
     = Done (Some "A"%string) at_rest
  /\ findActiveLayoutId (pointer (press 50 50)) with_ghost = Thrown with_ghost
  /\ draggableOptions pending_ghost !! "ghost"%string = None
  /\ onUpdate all_callbacks (pan 1 1) pending_ghost
     = Thrown (set_panGestureState ACTIVE pending_ghost).
Proof. repeat split; vm_compute; reflexivity. Qed.

Lemma C10_witness :
  draggableActiveId over_B = Some "A"%string
  /\ item_registered over_B "A"%string rectA optionsA
       {| pt_x := 100%Z; pt_y := 0%Z |} origin dragging
  /\ awaiting pressed_L "L"%string 1%positive optionsL
  /\ item_registered pressed_L "L"%string rectL optionsL origin origin pending
  /\ (let p' := exec all_callbacks [TimerFires 1%positive; Finalize release]
                  pressed_L in
      draggableActiveId p' = None
      /\ draggablePendingId p' = Some "L"%string
      /\ exists p'',
           onUpdate all_callbacks (pan 6 8) p' = Done tt p''
           /\ draggablePendingId p'' = None).
Proof.
  assert (item_registered over_B "A"%string rectA optionsA
            {| pt_x := 100%Z; pt_y := 0%Z |} origin dragging) as Hreg
    by (constructor; reflexivity).
  assert (item_registered pressed_L "L"%string rectL optionsL origin origin
            pending) as Hpreg by (constructor; reflexivity).
  split; [reflexivity|]. split; [exact Hreg|].
  split; [exact pressed_L_awaiting|]. split; [exact Hpreg|].
  exact (proj2 (proj2
    (C10_pending_id_outlives_the_drag all_callbacks release (pan 6 8)
       over_B "A"%string rectA optionsA {| pt_x := 100%Z; pt_y := 0%Z |}
       origin dragging pressed_L "L"%string 1%positive rectL optionsL
       origin origin eq_refl Hreg pressed_L_awaiting Hpreg))).
Defined.

Import Traces.

Lemma X2_witness :
  findActiveLayoutId (pointer (press 50 250)) at_rest
  = Done (Some "L"%string) at_rest
  /\ exists layout o off,
       (("L"%string, layout) : UniqueIdentifier * Rectangle Z)
         ∈ draggableLayouts at_rest
       /\ draggableOptions at_rest !! "L"%string = Some o
       /\ disabled o = false
       /\ draggableOffsets at_rest !! "L"%string = Some off
       /\ includesPoint layout (corrected at_rest (pointer (press 50 250)) off)
          = true.
Proof.
  assert (findActiveLayoutId (pointer (press 50 250)) at_rest
          = Done (Some "L"%string) at_rest) as Hfind
    by (vm_compute; reflexivity).
  split; [exact Hfind|].
  exact (proj2 (X2_findActiveLayoutId_sound (pointer (press 50 250))
                  at_rest at_rest "L"%string Hfind)).
Defined.

Lemma X5_witness :
  draggableActiveId over_B <> Some "L"%string
  /\ draggableOffsets (store_of (onUpdate all_callbacks (pan 7 7) over_B))
       !! "L"%string
     = draggableOffsets over_B !! "L"%string.
Proof.
  assert (draggableActiveId over_B <> Some "L"%string) as Hne
    by (vm_compute; discriminate).
  split; [exact Hne|].
  exact (X5_update_moves_only_the_active_item all_callbacks (pan 7 7) over_B
           "L"%string Hne).
Defined.

Lemma at_rest_idle : idle at_rest.
Proof. split; reflexivity. Qed.


Lemma X7_witness :
  prop_disabled disabled_provider = true
  /\ idle at_rest
  /\ idle (exec disabled_provider whole_drag at_rest)
  /\ dragging_entries disabled_provider "A"%string whole_drag at_rest = 0.
Proof.
  split; [reflexivity|]. split; [exact at_rest_idle|].
  exact (X7_disabled_provider_starts_no_drag disabled_provider whole_drag
           "A"%string at_rest eq_refl at_rest_idle).
Defined.


Lemma at_rest_A_registered :
  item_registered at_rest "A"%string rectA optionsA origin origin resting.
Proof. constructor; reflexivity. Qed.

Lemma at_rest_hit_A :
  findActiveLayoutId (pointer (press 50 50)) at_rest
  = Done (Some "A"%string) at_rest.
Proof. vm_compute. reflexivity. Qed.

Lemma X9_witness :
  prop_disabled all_callbacks = false
  /\ findActiveLayoutId (pointer (press 50 50)) at_rest
     = Done (Some "A"%string) at_rest
  /\ item_registered at_rest "A"%string rectA optionsA origin origin resting
  /\ delayed optionsA = false
  /\ droppables_registered at_rest
  /\ (let s1 :=
        exec all_callbacks
          [Begin (press 50 50); Update (pan 30 0); Update (pan 100 0);
           Finalize release] at_rest in
      draggableStates s1 !! "A"%string = Some acting
      /\ draggableOffsets s1 !! "A"%string
         = Some {| pt_x := 100%Z; pt_y := 0%Z |}
      /\ springX s1 !! "A"%string = Some {| toValue := 0%Z; velocity := 0%Z |}
      /\ draggableStates
           (host_exec
              [SpringFrame "A"%string {| pt_x := 40%Z; pt_y := 0%Z |};
               SpringFrame "A"%string {| pt_x := 0%Z; pt_y := 0%Z |};
               Gesture (Settle "A"%string)] (all_callbacks, s1)).2
           !! "A"%string = Some resting).
Proof.
  split; [reflexivity|]. split; [exact at_rest_hit_A|].
  split; [exact at_rest_A_registered|]. split; [reflexivity|].
  split; [exact at_rest_droppables_registered|].
  destruct (X9_whole_drag all_callbacks (press 50 50) [pan 30 0; pan 100 0]
              release
              [("A"%string, {| pt_x := 40%Z; pt_y := 0%Z |});
               ("A"%string, {| pt_x := 0%Z; pt_y := 0%Z |})]
              at_rest "A"%string rectA optionsA origin origin resting
              eq_refl at_rest_hit_A at_rest_A_registered eq_refl
              at_rest_droppables_registered)
    as ((Hst & _ & _ & Hoff & _ & Hsx & _) & (Hrest & _)).
  cbv zeta. split; [exact Hst|]. split; [exact Hoff|].
  split; [exact Hsx|exact Hrest].
Defined.




Lemma at_rest_hit_L :
  findActiveLayoutId (pointer (press 50 250)) at_rest
  = Done (Some "L"%string) at_rest.
Proof. vm_compute. reflexivity. Qed.

Lemma at_rest_L_registered :
  item_registered at_rest "L"%string rectL optionsL origin origin resting.
Proof. constructor; reflexivity. Qed.

Lemma X11_witness :
  prop_disabled all_callbacks = false
  /\ findActiveLayoutId (pointer (press 50 250)) at_rest
     = Done (Some "L"%string) at_rest
  /\ item_registered at_rest "L"%string rectL optionsL origin origin resting
  /\ delayed optionsL = true
  /\ idle at_rest
  /\ calls (exec all_callbacks [Begin (press 50 250)] at_rest)
     = [CallOnBegin (press 50 250) "L"%string rectL]
  /\ draggableActiveId
       (exec all_callbacks [Begin (press 50 250); TimerFires 1%positive]
          at_rest) = Some "L"%string
  /\ draggableActiveLayout
       (exec all_callbacks [Begin (press 50 250); TimerFires 1%positive]
          at_rest) = None.
Proof.
  split; [reflexivity|]. split; [exact at_rest_hit_L|].
  split; [exact at_rest_L_registered|]. split; [reflexivity|].
  split; [exact at_rest_idle|].
  destruct (X11_delayed_begin all_callbacks (press 50 250) at_rest
              "L"%string rectL optionsL origin origin resting eq_refl
              at_rest_hit_L at_rest_L_registered eq_refl at_rest_idle)
    as (_ & Hcalls & _ & Hact & _ & Hlay & _).
  split; [exact Hcalls|]. split; [exact Hact|exact Hlay].
Defined.

(** C6 (the code departs from the claim).  [L] is pressed and waits for
    its long press; the prop [disabled] changes, so that the closure of the
    gesture is rebuilt with [timeout] null; the pointer then moves by
    (6, 8), beyond the tolerance 5 of [L].  The Update clears the pending
    id, but [clearActiveIdTimeout] finds no handle and the timer stays
    queued; when it runs, [L] is active and dragging. *)
Theorem C6_timer_survives_a_rebuilt_closure :
  let before_move :=
    (host_exec [Gesture (Begin (press 50 250)); DisabledChanges]
       (all_callbacks, at_rest)).2 in
  let after_move :=
    (host_exec [Gesture (Begin (press 50 250)); DisabledChanges;
                Gesture (Update (pan 6 8))] (all_callbacks, at_rest)).2 in
  let after_timer :=
    (host_exec long_press_across_a_rebuild (all_callbacks, at_rest)).2 in
  draggablePendingId before_move = Some "L"%string
  /\ draggableStates before_move !! "L"%string = Some pending
  /\ timers before_move = [(1%positive, "L"%string)]
  /\ timeout before_move = None
  /\ exceeds (pan 6 8) optionsL = true
  /\ draggablePendingId after_move = None
  /\ timers after_move = [(1%positive, "L"%string)]
  /\ draggableActiveId after_timer = Some "L"%string
  /\ is_dragging after_timer "L"%string = true.
Proof. cbv zeta. repeat split; vm_compute; reflexivity. Qed.

(** * Properties of the hooks *)

Section HooksProofs.
Import Hooks.
Context {V : Type} `{EqDecision V}.
Variable strict_ne : V -> V -> bool.

Lemma effect_latest value cur :
  effect strict_ne value cur = value
  \/ strict_ne (effect strict_ne value cur) value = false.
Proof.
  unfold effect. destruct (strict_ne cur value) eqn:Hne; [left|right]; auto.
Qed.

Lemma areHookInputsEqual_refl (deps : list V) :
  areHookInputsEqual deps deps = true.
Proof.
  induction deps as [|d deps IH]; [reflexivity|]. cbn.
  rewrite bool_decide_eq_true_2 by reflexivity. exact IH.
Qed.

Lemma rendered_default_latest
    (hook : option Cell -> V -> option (list V) -> Cell) :
  (forall cell value, hook cell value None
                      = match cell with
                        | None => mount strict_ne value [value]
                        | Some c => rerender strict_ne c value [value]
                        end) ->
  forall later c last_value,
    memo c = [last_value] ->
    (current c = last_value \/ strict_ne (current c) last_value = false) ->
    forall value,
    exists c',
      rendered hook (Some c) (map (fun v => (v, None)) (later ++ [value]))
      = Some c'
      /\ memo c' = [value]
      /\ (current c' = value \/ strict_ne (current c') value = false).
Proof.
  intros Hhook later. induction later as [|v later IH];
    intros c last_value Hmemo Hcur value; cbn [app map rendered];
    rewrite Hhook.
  - eexists. split; [reflexivity|]. split; [reflexivity|].
    cbn. rewrite Hmemo. cbn. rewrite andb_true_r.
    destruct (bool_decide_reflect (value = last_value)) as [->|Hne];
      [exact Hcur|apply effect_latest].
  - apply (IH _ v); [reflexivity|].
    cbn. rewrite Hmemo. cbn. rewrite andb_true_r.
    destruct (bool_decide_reflect (v = last_value)) as [->|Hne];
      [exact Hcur|apply effect_latest].
Qed.

(** X13.  With the default dependency list [[value]], after every render
    the cell of [useLatestValue], and that of [useLatestSharedValue], holds
    the value of that render, or a value that [!==] does not tell from it;
    when [!==] tells all different values apart, the cell holds the value
    of the last render. *)
Theorem X13_useLatestValue_holds_the_latest earlier value :
  let renders := map (fun v => (v, None)) (earlier ++ [value]) in
  (exists c,
      rendered (useLatestValue strict_ne) None renders = Some c
      /\ (current c = value \/ strict_ne (current c) value = false)
      /\ ((forall a b, strict_ne a b = false -> a = b) -> current c = value))
  /\ (exists c,
        rendered (useLatestSharedValue strict_ne) None renders = Some c
        /\ (current c = value \/ strict_ne (current c) value = false)
        /\ ((forall a b, strict_ne a b = false -> a = b) ->
            current c = value)).
Proof.
  cbv zeta.
  assert (forall hook : option Cell -> V -> option (list V) -> Cell,
    (forall cell v, hook cell v None
                    = match cell with
                      | None => mount strict_ne v [v]
                      | Some c => rerender strict_ne c v [v]
                      end) ->
    exists c,
      rendered hook None (map (fun v => (v, None)) (earlier ++ [value]))
      = Some c
      /\ (current c = value \/ strict_ne (current c) value = false)
      /\ ((forall a b, strict_ne a b = false -> a = b) -> current c = value))
    as Hboth.
  { intros hook Hhook.
    assert (exists c,
      rendered hook None (map (fun v => (v, None)) (earlier ++ [value]))
      = Some c
      /\ (current c = value \/ strict_ne (current c) value = false))
      as (c & Hrun & Hcur).
    { destruct earlier as [|first later]; cbn [app map rendered].
      - rewrite Hhook. eexists. split; [reflexivity|].
        cbn. apply effect_latest.
      - destruct (rendered_default_latest hook Hhook later
                    (hook None first None) first) with (value := value)
          as (c & Hrun & _ & Hcur).
        + rewrite Hhook. reflexivity.
        + rewrite Hhook. cbn. apply effect_latest.
        + exists c. split; [exact Hrun|exact Hcur]. }
    exists c. split; [exact Hrun|]. split; [exact Hcur|].
    intros Hstrict. destruct Hcur as [Hcur|Hcur]; auto. }
  split; apply Hboth; intros [c|] v; reflexivity.
Qed.

(** X14.  With a dependency list given by the caller that is the same at
    every render, the effect runs at the first render only: the cell keeps
    the value of the first render, whatever values the later renders
    pass. *)
Theorem X14_useLatestValue_follows_its_dependencies first later deps :
  let renders := (first, Some deps) :: map (fun v => (v, Some deps)) later in
  (exists c,
      rendered (useLatestValue strict_ne) None renders = Some c
      /\ current c = first)
  /\ (exists c,
        rendered (useLatestSharedValue strict_ne) None renders = Some c
        /\ current c = first).
Proof.
  cbv zeta. cbn [rendered].
  assert (forall hook : option Cell -> V -> option (list V) -> Cell,
    (forall c v, hook (Some c) v (Some deps) = rerender strict_ne c v deps) ->
    forall c,
      memo c = deps ->
      exists c',
        rendered hook (Some c) (map (fun v => (v, Some deps)) later) = Some c'
        /\ current c' = current c) as Hkeep.
  { intros hook Hhook. induction later as [|v vs IH]; intros c Hmemo.
    - exists c. split; reflexivity.
    - cbn [map rendered]. rewrite Hhook.
      destruct (IH (rerender strict_ne c v deps) eq_refl) as (c' & Hrun & Hc).
      exists c'. split; [exact Hrun|]. rewrite Hc. cbn.
      rewrite Hmemo, areHookInputsEqual_refl. reflexivity. }
  assert (current (mount strict_ne first deps) = first) as Hfirst.
  { cbn. unfold effect. destruct (strict_ne first first); reflexivity. }
  split.
  - destruct (Hkeep (useLatestValue strict_ne) (fun _ _ => eq_refl)
                (mount strict_ne first deps) eq_refl) as (c & Hrun & Hc).
    exists c. split; [exact Hrun|]. rewrite Hc. exact Hfirst.
  - destruct (Hkeep (useLatestSharedValue strict_ne) (fun _ _ => eq_refl)
                (mount strict_ne first deps) eq_refl) as (c & Hrun & Hc).
    exists c. split; [exact Hrun|]. rewrite Hc. exact Hfirst.
Qed.

End HooksProofs.
